(** * mdk_to_vscode: Keil project settings merged into c_cpp_properties.json

    A shallow embedding of [src/mdk_to_vscode.py].  Python values are
    modelled as follows.

    - A [str] is the list of its Unicode code points ([pystr]).
    - A value produced by [json.load] is a tree ([json]); a JSON object is a
      Python [dict], which keeps insertion order, so it is an association
      list ([pydict]) read and written with [dict_get] and [dict_set].
    - The parsed XML document is a tree of [element]s carrying the [tag],
      [text] and children that the script reads.
    - The file system is a finite map from paths to nodes.  A regular file
      is identified with what the parsers make of it: the JSON value
      [json.load] reads, the tree [ET.parse] reads, or text that both reject.
      Two files are the same when they hold the same value; how
      [json.dump] lays the text out is not modelled.
    - Functions that print, touch the file system or raise run in a small
      state and exception monad [py] over a [world]. *)

From Stdlib Require Import ZArith NArith String Ascii List Bool Lia.
From stdpp Require Import base option list gmap.

Set Warnings "-register-all".

Open Scope N_scope.

(* ------------------------------------------------------------------ *)
(** ** Python strings *)

Abbreviation pystr := (list N).

(** A literal of the script, as a list of code points. *)
Definition lit (s : string) : pystr :=
  List.map N_of_ascii (list_ascii_of_string s).

Definition pystr_eqb (a b : pystr) : bool := bool_decide (a = b).

(** [s.startswith(pre)] *)
Fixpoint startswith (s pre : pystr) {struct pre} : bool :=
  match pre, s with
  | [], _ => true
  | _ :: _, [] => false
  | c :: pre', d :: s' => (d =? c) && startswith s' pre'
  end.

(** [s.replace(old, new)] for one-character [old] and [new]. *)
Definition replace_char (old new : N) (s : pystr) : pystr :=
  (fun c => if c =? old then new else c) <$> s.

(** [str.isspace] on one code point, as CPython's
    [_PyUnicode_IsWhitespace] lists them. *)
Definition isspace (c : N) : bool :=
  ((9 <=? c) && (c <=? 13)) || ((28 <=? c) && (c <=? 32))
  || (c =? 133) || (c =? 160) || (c =? 5760)
  || ((8192 <=? c) && (c <=? 8202))
  || (c =? 8232) || (c =? 8233) || (c =? 8239) || (c =? 8287) || (c =? 12288).

Fixpoint lstrip (s : pystr) : pystr :=
  match s with
  | c :: s' => if isspace c then lstrip s' else s
  | [] => []
  end.

Definition rstrip (s : pystr) : pystr := rev (lstrip (rev s)).

(** [s.strip()] *)
Definition strip (s : pystr) : pystr := rstrip (lstrip s).

(** [s.split(sep)] for a one-character separator: never the empty list. *)
Fixpoint split (sep : N) (s : pystr) : list pystr :=
  match s with
  | [] => [[]]
  | c :: s' =>
      if c =? sep then [] :: split sep s'
      else match split sep s' with
           | piece :: pieces => (c :: piece) :: pieces
           | [] => [[c]]
           end
  end.

(** Truth value of a string: non-empty. *)
Definition str_truthy (s : pystr) : bool :=
  match s with [] => false | _ :: _ => true end.

(* ------------------------------------------------------------------ *)
(** ** [normalize_and_clean_path] *)

Definition backslash : N := 92.
Definition slash : N := 47.
Definition parent_prefix : pystr := Eval cbv in lit "../".

(** The [while path.startswith('../'): path = path[3:]] loop.  Every
    iteration shortens [path], so [length path] iterations are enough
    (lemma [strip_parents_fuel] below). *)
Fixpoint strip_parents (fuel : nat) (path : pystr) : pystr :=
  match fuel with
  | O => path
  | S fuel' =>
      if startswith path parent_prefix
      then strip_parents fuel' (drop 3 path)
      else path
  end.

Definition normalize_and_clean_path (path : pystr) : pystr :=
  let path := replace_char backslash slash path in
  strip_parents (length path) path.

(* ------------------------------------------------------------------ *)
(** ** JSON values and Python dicts *)

(** What [json.load] returns.  A float is kept by its literal: the script
    never computes with numbers. *)
Inductive json : Type :=
| JNull
| JBool (b : bool)
| JInt (n : Z)
| JFloat (literal : pystr)
| JStr (s : pystr)
| JArr (items : list json)
| JObj (fields : list (pystr * json)).

(** A [dict] with [str] keys, in insertion order. *)
Abbreviation pydict := (list (pystr * json)).

(** [d.get(k)], with [None] for a missing key. *)
Fixpoint dict_get (k : pystr) (d : pydict) : option json :=
  match d with
  | [] => None
  | (k', v) :: d' => if pystr_eqb k' k then Some v else dict_get k d'
  end.

(** [d.get(k, default)] *)
Definition dict_get_default (k : pystr) (default : json) (d : pydict) : json :=
  match dict_get k d with Some v => v | None => default end.

(** [d[k] = v]: a present key keeps its place, a new key goes last. *)
Fixpoint dict_set (k : pystr) (v : json) (d : pydict) : pydict :=
  match d with
  | [] => [(k, v)]
  | (k', v') :: d' =>
      if pystr_eqb k' k then (k', v) :: d' else (k', v') :: dict_set k v d'
  end.

(** [x == s] for a [str] [s] and [x] a JSON value or [None]. *)
Definition eq_str (x : option json) (s : pystr) : bool :=
  match x with
  | Some (JStr t) => pystr_eqb t s
  | _ => false
  end.

(** [needle in s] on strings. *)
Fixpoint is_substring (needle s : pystr) : bool :=
  startswith s needle
  || match s with
     | [] => false
     | _ :: s' => is_substring needle s'
     end.

Inductive exn : Type :=
| FileNotFoundError
| IsADirectoryError
| FileExistsError
| ParseError
| JSONDecodeError
| TypeError
| AttributeError
| KeyError.

(** [k in x] for a [str] [k]. *)
Definition py_contains (k : pystr) (x : json) : exn + bool :=
  match x with
  | JObj d => inr (match dict_get k d with Some _ => true | None => false end)
  | JArr items => inr (existsb (fun item => eq_str (Some item) k) items)
  | JStr s => inr (is_substring k s)
  | JNull | JBool _ | JInt _ | JFloat _ => inl TypeError
  end.

(** [x[k]] for a [str] [k]. *)
Definition py_getitem (x : json) (k : pystr) : exn + json :=
  match x with
  | JObj d => match dict_get k d with Some v => inr v | None => inl KeyError end
  | _ => inl TypeError
  end.

(** [x.get(k)]: only a dict has the method. *)
Definition py_get (x : json) (k : pystr) : exn + option json :=
  match x with
  | JObj d => inr (dict_get k d)
  | _ => inl AttributeError
  end.

(** [isinstance(x, list)] *)
Definition is_list (x : json) : bool :=
  match x with JArr _ => true | _ => false end.

(** *** References into a loaded document

    [json.load] builds a tree of fresh objects, so an object reachable from
    [content] is named by the path that leads to it.  [target_config] is
    such a reference: what is assigned through it is seen in [content]. *)
Inductive selector : Type :=
| Key (k : pystr)
| Index (i : nat).

Abbreviation ref := (list selector).

Definition select (s : selector) (x : json) : option json :=
  match s, x with
  | Key k, JObj d => dict_get k d
  | Index i, JArr items => items !! i
  | _, _ => None
  end.

Definition put (s : selector) (y : json) (x : json) : json :=
  match s, x with
  | Key k, JObj d => JObj (dict_set k y d)
  | Index i, JArr items => JArr (<[i := y]> items)
  | _, _ => x
  end.

(** The object a reference names. *)
Fixpoint deref (r : ref) (x : json) : option json :=
  match r with
  | [] => Some x
  | s :: r' => match select s x with Some y => deref r' y | None => None end
  end.

(** Mutate the object a reference names; [None] when the reference dangles
    or the mutation does not apply to that object. *)
Fixpoint mutate (r : ref) (f : json -> option json) (x : json) : option json :=
  match r with
  | [] => f x
  | s :: r' =>
      match select s x with
      | Some y => match mutate r' f y with
                  | Some y' => Some (put s y' x)
                  | None => None
                  end
      | None => None
      end
  end.

(** [obj[k] = v] on a dict. *)
Definition setitem (k : pystr) (v : json) (obj : json) : option json :=
  match obj with JObj d => Some (JObj (dict_set k v d)) | _ => None end.

(** [obj.append(v)] on a list. *)
Definition append (v : json) (obj : json) : option json :=
  match obj with JArr items => Some (JArr (items ++ [v])) | _ => None end.

(* ------------------------------------------------------------------ *)
(** ** ElementTree *)

(** An [Element], with the attributes the script reads. *)
Inductive element : Type :=
| Element (tag : pystr) (text : option pystr) (children : list element).

Definition tag (e : element) : pystr := match e with Element t _ _ => t end.
Definition text (e : element) : option pystr := match e with Element _ x _ => x end.
Definition children (e : element) : list element :=
  match e with Element _ _ cs => cs end.

(** [e.iter(t)]: [e] and its descendants in document order, those tagged [t]. *)
Fixpoint iter (t : pystr) (e : element) : list element :=
  match e with
  | Element t' _ cs =>
      (if pystr_eqb t' t then [e] else []) ++ List.flat_map (iter t) cs
  end.

(** The steps of the two paths used: [.//t] and [/t]. *)
Inductive path_step : Type :=
| Descendant (t : pystr)
| Child (t : pystr).

(** ElementPath's selectors.  [.//t] skips the context element itself, which
    [iter] can only yield first. *)
Definition select_step (s : path_step) (result : list element) : list element :=
  match s with
  | Descendant t => List.flat_map (fun e => List.flat_map (iter t) (children e)) result
  | Child t =>
      List.flat_map (fun e => List.filter (fun c => pystr_eqb (tag c) t) (children e)) result
  end.

Definition iterfind (e : element) (path : list path_step) : list element :=
  fold_left (fun result s => select_step s result) path [e].

(** [e.find(path)]: the first match or [None]. *)
Definition find (e : element) (path : list path_step) : option element :=
  head (iterfind e path).

(* ------------------------------------------------------------------ *)
(** ** The world: file system and standard output *)

Inductive file_content : Type :=
| Json (v : json)        (** text that [json.load] reads as [v] *)
| Xml (root : element)   (** text that [ET.parse] reads as a tree with this root *)
| Text (raw : pystr).    (** text that both parsers reject *)

Inductive node : Type :=
| Directory
| File (c : file_content).

(** What the script prints; the wording of the messages is left out. *)
Inductive message : Type :=
| MsgProjectFileNotFound (path : pystr)
| MsgXmlParseError
| MsgExtractUnknownError (e : exn)
| MsgDocumentNotFound (path : pystr)
| MsgNoConfigurations
| MsgCreateConfig (name : pystr)
| MsgUpdated (name : pystr)
| MsgBadJson (path : pystr)
| MsgUpdateUnknownError (e : exn).

Record world : Type := World {
  fs : gmap pystr node;
  stdout : list message
}.

Inductive outcome (A : Type) : Type :=
| Returned (a : A)
| Raised (e : exn).
Arguments Returned {A} a.
Arguments Raised {A} e.

(** Computations that read and write the world and may raise. *)
Definition py (A : Type) : Type := world -> outcome A * world.

#[export] Instance py_ret : MRet py := fun A a w => (Returned a, w).

#[export] Instance py_bind : MBind py := fun A B f m w =>
  match m w with
  | (Returned a, w') => f a w'
  | (Raised e, w') => (Raised e, w')
  end.

Definition raise {A} (e : exn) : py A := fun w => (Raised e, w).

(** [try: body except: handler] *)
Definition try_except {A} (body : py A) (handler : exn -> py A) : py A := fun w =>
  match body w with
  | (Returned a, w') => (Returned a, w')
  | (Raised e, w') => handler e w'
  end.

Definition lift {A} (x : exn + A) : py A :=
  match x with inl e => raise e | inr a => mret a end.

(** A mutation through a reference; the references the script holds never
    dangle, which the theorems on [update_c_cpp_properties] bear out. *)
Definition through {A} (x : option A) : py A :=
  match x with Some a => mret a | None => raise TypeError end.

Definition print (m : message) : py unit := fun w =>
  (Returned tt, World (fs w) (stdout w ++ [m])).

(** [os.path.exists(p)], [Path.exists()] *)
Definition path_exists (p : pystr) : py bool := fun w =>
  (Returned (match fs w !! p with Some _ => true | None => false end), w).

(** [with open(p, 'r') as f: json.load(f)] *)
Definition json_load_file (p : pystr) : py json := fun w =>
  match fs w !! p with
  | None => (Raised FileNotFoundError, w)
  | Some Directory => (Raised IsADirectoryError, w)
  | Some (File (Json v)) => (Returned v, w)
  | Some (File _) => (Raised JSONDecodeError, w)
  end.

(** [with open(p, 'w') as f: json.dump(v, f, ...)] *)
Definition json_dump_file (p : pystr) (v : json) : py unit := fun w =>
  match fs w !! p with
  | Some Directory => (Raised IsADirectoryError, w)
  | _ => (Returned tt, World (<[p := File (Json v)]> (fs w)) (stdout w))
  end.

(** [ET.parse(p).getroot()] *)
Definition ET_parse (p : pystr) : py element := fun w =>
  match fs w !! p with
  | None => (Raised FileNotFoundError, w)
  | Some Directory => (Raised IsADirectoryError, w)
  | Some (File (Xml root)) => (Returned root, w)
  | Some (File _) => (Raised ParseError, w)
  end.

(** [Path(p).mkdir(parents=True, exist_ok=True)], as far as [p] itself goes. *)
Definition mkdir_parents_exist_ok (p : pystr) : py unit := fun w =>
  match fs w !! p with
  | None => (Returned tt, World (<[p := Directory]> (fs w)) (stdout w))
  | Some Directory => (Returned tt, w)
  | Some (File _) => (Raised FileExistsError, w)
  end.


(* ------------------------------------------------------------------ *)
(** ** The script's constants *)

Definition semicolon : N := 59.
Definition comma : N := 44.

Definition k_name : pystr := Eval cbv in lit "name".
Definition k_includePath : pystr := Eval cbv in lit "includePath".
Definition k_defines : pystr := Eval cbv in lit "defines".
Definition k_configurations : pystr := Eval cbv in lit "configurations".
Definition k_version : pystr := Eval cbv in lit "version".
Definition k_intelliSenseMode : pystr := Eval cbv in lit "intelliSenseMode".
Definition k_compilerPath : pystr := Eval cbv in lit "compilerPath".
Definition k_cStandard : pystr := Eval cbv in lit "cStandard".
Definition k_cppStandard : pystr := Eval cbv in lit "cppStandard".

Definition t_Cads : pystr := Eval cbv in lit "Cads".
Definition t_VariousControls : pystr := Eval cbv in lit "VariousControls".
Definition t_IncludePath : pystr := Eval cbv in lit "IncludePath".
Definition t_Define : pystr := Eval cbv in lit "Define".



(** A Python list of [str], as a JSON value. *)
Definition str_list (l : list pystr) : json := JArr (JStr <$> l).

(* ------------------------------------------------------------------ *)
(** ** [generate_vscode_config_from_file] *)

(** [[normalize_and_clean_path(p.strip()) for p in text.split(';') if p.strip()]] *)
Definition include_paths (text : pystr) : list pystr :=
  (fun p => normalize_and_clean_path (strip p)) <$>
    (List.filter (fun p => str_truthy (strip p)) (split semicolon text)).

(** [[d.strip() for d in text.split(',') if d.strip()]] *)
Definition define_symbols (text : pystr) : list pystr :=
  (fun d => strip d) <$>
    (List.filter (fun d => str_truthy (strip d)) (split comma text)).

Definition generate_vscode_config_from_file
    (input_filepath config_name : pystr) : py (option pydict) :=
  try_except
    (root ← ET_parse input_filepath;
     match find root [Descendant t_Cads] with
     | None => mret None
     | Some cads_node =>
         let extracted_data : pydict :=
           [(k_includePath, JArr []); (k_defines, JArr [])] in
         let path_node :=
           find cads_node [Descendant t_VariousControls; Child t_IncludePath] in
         let extracted_data :=
           match path_node with
           | Some n =>
               match text n with
               | Some t =>
                   if str_truthy t
                   then dict_set k_includePath (str_list (include_paths t)) extracted_data
                   else extracted_data
               | None => extracted_data
               end
           | None => extracted_data
           end in
         let define_node :=
           find cads_node [Descendant t_VariousControls; Child t_Define] in
         let extracted_data :=
           match define_node with
           | Some n =>
               match text n with
               | Some t =>
                   if str_truthy t
                   then dict_set k_defines (str_list (define_symbols t)) extracted_data
                   else extracted_data
               | None => extracted_data
               end
           | None => extracted_data
           end in
         mret (Some extracted_data)
     end)
    (fun e =>
       match e with
       | FileNotFoundError =>
           print (MsgProjectFileNotFound input_filepath);; mret None
       | ParseError => print MsgXmlParseError;; mret None
       | _ => print (MsgExtractUnknownError e);; mret None
       end).

(* ------------------------------------------------------------------ *)
(** ** [ensure_vscode_c_cpp_properties] *)



(* ------------------------------------------------------------------ *)
(** ** [update_c_cpp_properties] *)

(** The items a [for] loop over [x] visits, for a list [x]. *)
Definition items (x : json) : list json :=
  match x with JArr l => l | _ => [] end.

(** The search loop: the position of the first [config] with
    [config.get('name') == config_name], from position [i] on. *)
Fixpoint find_config (config_name : pystr) (configs : list json) (i : nat)
    : exn + option nat :=
  match configs with
  | [] => inr None
  | config :: rest =>
      match py_get config k_name with
      | inl e => inl e
      | inr name =>
          if eq_str name config_name then inr (Some i)
          else find_config config_name rest (S i)
      end
  end.

Definition new_configuration (config_name : pystr) : pydict :=
  [ (k_name, JStr config_name);
    (k_intelliSenseMode, JStr (lit "linux-gcc-arm"));
    (k_compilerPath, JStr (lit "arm-none-eabi-gcc"));
    (k_cStandard, JStr (lit "c99"));
    (k_cppStandard, JStr (lit "c++11")) ].

Definition update_c_cpp_properties
    (new_data : pydict) (output_filepath config_name : pystr) : py unit :=
  present ← path_exists output_filepath;
  if negb present then print (MsgDocumentNotFound output_filepath)
  else
    try_except
      (content ← json_load_file output_filepath;
       has ← lift (py_contains k_configurations content);
       no_list ←
         (if negb has then mret true
          else configurations ← lift (py_getitem content k_configurations);
               mret (negb (is_list configurations)));
       if (no_list : bool) then print MsgNoConfigurations
       else
         configurations ← lift (py_getitem content k_configurations);
         found ← lift (find_config config_name (items configurations) 0);
         '(target_config, content) ←
           match found with
           | Some i => mret ([Key k_configurations; Index i], content)
           | None =>
               print (MsgCreateConfig config_name);;
               content ← through
                 (mutate [Key k_configurations]
                    (append (JObj (new_configuration config_name))) content);
               mret ([Key k_configurations;
                      Index (length (items configurations))], content)
           end;
         content ← through
           (mutate target_config
              (setitem k_includePath
                 (dict_get_default k_includePath (JArr []) new_data)) content);
         content ← through
           (mutate target_config
              (setitem k_defines
                 (dict_get_default k_defines (JArr []) new_data)) content);
         json_dump_file output_filepath content;;
         print (MsgUpdated config_name))
      (fun e =>
         match e with
         | JSONDecodeError => print (MsgBadJson output_filepath)
         | _ => print (MsgUpdateUnknownError e)
         end).

(* ------------------------------------------------------------------ *)
(** ** The specification's notions

    These follow the words of the specification, not the code; the
    theorems below compare the two. *)

(** "Replace every backslash directory separator with a forward slash":
    [r] is [s] with each backslash turned into a slash, position by
    position. *)
Definition backslashes_replaced (s r : pystr) : Prop :=
  length r = length s ∧
  ∀ (i : nat) c, s !! i = Some c →
    r !! i = Some (if decide (c = backslash) then slash else c).

(** "While the string starts with ../, remove that prefix": [r] is what is
    left of [s] once no leading "../" remains. *)
Inductive parents_stripped : pystr -> pystr -> Prop :=
| stripped_done (s : pystr) :
    ¬ parent_prefix `prefix_of` s -> parents_stripped s s
| stripped_more (s r : pystr) :
    parents_stripped s r -> parents_stripped (parent_prefix ++ s) r.

(** "Split on the separator, trim whitespace from each piece, discard empty
    pieces, collect in original order." *)
Definition trimmed_pieces (sep : N) (text : pystr) : list pystr :=
  filter (fun piece => piece ≠ []) (strip <$> split sep text).

(** [sep.join(pieces)], the inverse of splitting. *)
Fixpoint join (sep : N) (pieces : list pystr) : pystr :=
  match pieces with
  | [] => []
  | [piece] => piece
  | piece :: rest => piece ++ sep :: join sep rest
  end.

(** The field [t] under [VariousControls] is "absent or empty": no such
    node, or a node without text. *)
Definition field_empty (cads_node : element) (t : pystr) : Prop :=
  ∀ n, find cads_node [Descendant t_VariousControls; Child t] = Some n →
       text n = None ∨ text n = Some [].

(** [d] lies strictly below [e] in the tree. *)
Inductive descendant : element -> element -> Prop :=
| descendant_child (e c : element) :
    c ∈ children e -> descendant e c
| descendant_deeper (e c d : element) :
    c ∈ children e -> descendant c d -> descendant e d.

(** A ConfigurationEntry is a mapping. *)
Definition is_entry (x : json) : Prop := ∃ d : pydict, x = JObj d.

(** An entry whose [name] is [config_name]. *)
Definition named (config_name : pystr) (x : json) : Prop :=
  ∃ d : pydict, x = JObj d ∧ dict_get k_name d = Some (JStr config_name).

(** [entry] sits at position [i] of [configurations] and is the first one
    in list order that is named [config_name]. *)
Definition first_named (config_name : pystr) (configurations : list json)
    (i : nat) (entry : pydict) : Prop :=
  configurations !! i = Some (JObj entry) ∧
  dict_get k_name entry = Some (JStr config_name) ∧
  ∀ (j : nat) x, (j < i)%nat → configurations !! j = Some x → ¬ named config_name x.


(** A document that "lacks a configurations list". *)
Definition lacks_configurations_list (v : json) : Prop :=
  ¬ ∃ (d : pydict) (l : list json),
      v = JObj d ∧ dict_get k_configurations d = Some (JArr l).


(** The two lists a merge takes from the new data. *)
Definition new_includePath (new_data : pydict) : json :=
  dict_get_default k_includePath (JArr []) new_data.
Definition new_defines (new_data : pydict) : json :=
  dict_get_default k_defines (JArr []) new_data.

(** An entry with its [includePath] and [defines] set from the new data. *)
Definition with_new_data (new_data : pydict) (entry : pydict) : pydict :=
  dict_set k_defines (new_defines new_data)
    (dict_set k_includePath (new_includePath new_data) entry).



(** What a merge that goes through returns: the document at [p] holds
    [configurations'] in place of its list, and [printed] went to the output. *)
Definition merge_wrote (w : world) (p : pystr) (document : pydict)
    (configurations' : list json) (printed : list message) : outcome () * world :=
  (Returned (),
   World (<[p := File (Json (JObj (dict_set k_configurations
                                     (JArr configurations') document)))]> (fs w))
         (stdout w ++ printed)).

(** What a merge that gives up returns: one message, no write. *)
Definition merge_gave_up (w : world) (m : message) : outcome () * world :=
  (Returned (), World (fs w) (stdout w ++ [m])).

(** The file system a computation leaves behind. *)
Definition fs_after {A} (m : py A) (w : world) : gmap pystr node := fs (m w).2.

(* ------------------------------------------------------------------ *)
(** ** Example data *)

(** A project whose Cads node lists [A;B;C] as include paths and
    [  X ,Y,  ] as defines. *)
Definition demo_uvprojx : pystr := Eval cbv in lit "demo.uvprojx".

Definition demo_cads : element :=
  Element t_Cads None
    [ Element (lit "Optim") (Some (lit "1")) [];
      Element t_VariousControls None
        [ Element t_Define (Some (lit "  X ,Y,  ")) [];
          Element t_IncludePath (Some (lit "A;B;C")) [] ] ].

Definition demo_project : element :=
  Element (lit "Project") None
    [ Element (lit "Targets") None
        [ Element (lit "Target") None
            [ Element (lit "TargetName") (Some (lit "demo")) [];
              Element (lit "Aads") None [];
              demo_cads ] ] ].

Definition demo_world : world :=
  World {[ demo_uvprojx := File (Xml demo_project) ]} [].

(** An assembly-only project: no Cads node. *)
Definition assembly_project : element :=
  Element (lit "Project") None
    [ Element (lit "Targets") None
        [ Element (lit "Target") None
            [ Element (lit "TargetName") (Some (lit "demo")) [];
              Element (lit "Aads") None
                [ Element t_VariousControls None
                    [ Element t_IncludePath (Some (lit "..\inc")) [] ] ] ] ] ].

Definition assembly_world : world :=
  World {[ demo_uvprojx := File (Xml assembly_project) ]} [].


(** The document of the specification's example:
    [[{name: "Foo", ...}, {name: "Bar", extra: 1}]]. *)
Definition properties_json : pystr := Eval cbv in lit ".vscode/c_cpp_properties.json".

Definition foo_entry : pydict :=
  [ (k_name, JStr (lit "Foo"));
    (k_includePath, str_list [lit "old/inc"]);
    (k_compilerPath, JStr (lit "gcc"));
    (k_defines, str_list [lit "OLD"]) ].




(** The record extracted in the specification's end-to-end scenario. *)
Definition hal_data : pydict :=
  [ (k_includePath, str_list [lit "inc"; lit "drv/inc"]);
    (k_defines, str_list [lit "USE_HAL"; lit "STM32F4"]) ].

(** Unfolds the monad's plumbing. *)
Ltac run :=
  unfold mbind, py_bind, mret, py_ret, try_except, lift, through, raise, print,
    path_exists, json_load_file, json_dump_file, mkdir_parents_exist_ok;
  cbn [fs stdout fst snd].

(* ------------------------------------------------------------------ *)
(** ** The rest of the script

    The functions below print and log lines of their own and read the
    directory tree, which the world above does not hold.  They run in a
    second monad [io] over a [console]: the same file system, the lines
    printed to standard output, and the records logged to standard error.  A
    computation of [py] runs in [io] by [run_py]. *)

(** [s.endswith(suffix)] *)
Definition endswith (s suffix : pystr) : bool := startswith (rev s) (rev suffix).

(** [posixpath.join(a, b)] *)
Definition os_path_join (a b : pystr) : pystr :=
  if startswith b [slash] || negb (str_truthy a) then b
  else if endswith a [slash] then a ++ b
  else a ++ slash :: b.

(** What [os.scandir] finds under a directory: the entries by name, in the
    order the system lists them.  Links and unreadable directories are left
    out. *)
Inductive fstree : Type :=
| FsFile
| FsDir (entries : list (pystr * fstree)).

Definition is_dir (t : fstree) : bool :=
  match t with FsDir _ => true | FsFile => false end.

(** [os.walk(top)], top-down: each directory with the names of its
    sub-directories and of its other entries, then each sub-directory in
    turn.  A [top] that cannot be listed yields nothing. *)
Fixpoint walk (top : pystr) (t : fstree) : list (pystr * list pystr * list pystr) :=
  match t with
  | FsFile => []
  | FsDir entries =>
      (top,
       (List.filter (fun e => is_dir e.2) entries).*1,
       (List.filter (fun e => negb (is_dir e.2)) entries).*1)
      :: List.flat_map
           (fun e => match e with
                     | (dirname, sub) =>
                         if is_dir sub then walk (os_path_join top dirname) sub
                         else []
                     end) entries
  end.

Definition uvprojx_suffix : pystr := Eval cbv in lit ".uvprojx".

(** [find_uvprojx_files(start_dir)]; [tree] is what the file system holds at
    [start_dir], [None] when nothing is there. *)
Definition find_uvprojx_files (start_dir : pystr) (tree : option fstree) : list pystr :=
  let walked := match tree with Some t => walk start_dir t | None => [] end in
  List.flat_map
    (fun '(root, dirs, files) =>
       os_path_join root <$> List.filter (fun file => endswith file uvprojx_suffix) files)
    walked.

(** *** Console *)

Inductive level : Type := INFO | WARNING | ERROR.

(** The records the script logs; their wording is left out. *)
Inductive log_text : Type :=
| LogReadJsonFailed (e : exn)
| LogJsonWritten (path : pystr)
| LogWriteJsonFailed (e : exn)
| LogNoProjectFile (src_dir : pystr)
| LogExtractionFailed (path : pystr).

(** The lines on standard output: those of the functions above, and those
    of [write_editorconfig_file]. *)
Inductive printed : Type :=
| Said (m : message)
| EditorconfigExists (path : pystr)
| EditorconfigWritten (path : pystr)
| EditorconfigFailed (e : exn).

Record console : Type := Console {
  files : gmap pystr node;
  out : list printed;
  err : list (level * log_text)
}.

Definition io (A : Type) : Type := console -> outcome A * console.

#[export] Instance io_ret : MRet io := fun A a s => (Returned a, s).

#[export] Instance io_bind : MBind io := fun A B f m s =>
  match m s with
  | (Returned a, s') => f a s'
  | (Raised e, s') => (Raised e, s')
  end.

Definition io_try {A} (body : io A) (handler : exn -> io A) : io A := fun s =>
  match body s with
  | (Returned a, s') => (Returned a, s')
  | (Raised e, s') => handler e s'
  end.

(** A computation of [py], run on the console's file system; what it
    prints goes to standard output. *)
Definition run_py {A} (m : py A) : io A := fun s =>
  match m (World (files s) []) with
  | (r, w) => (r, Console (fs w) (out s ++ (Said <$> stdout w)) (err s))
  end.

Definition say (p : printed) : io unit := fun s =>
  (Returned tt, Console (files s) (out s ++ [p]) (err s)).

(** [logging.info], [logging.warning], [logging.error] *)
Definition log (l : level) (t : log_text) : io unit := fun s =>
  (Returned tt, Console (files s) (out s) (err s ++ [(l, t)])).

Definition log_info : log_text -> io unit := log INFO.
Definition log_warning : log_text -> io unit := log WARNING.
Definition log_error : log_text -> io unit := log ERROR.

(** [with open(p, 'w') as f: f.write(text)] *)
Definition text_write_file (p text : pystr) : py unit := fun w =>
  match fs w !! p with
  | Some Directory => (Raised IsADirectoryError, w)
  | _ => (Returned tt, World (<[p := File (Text text)]> (fs w)) (stdout w))
  end.

(** *** [safe_read_json], [safe_write_json] *)

Definition safe_read_json (path : pystr) : io json :=
  io_try (run_py (json_load_file path))
    (fun e => log_error (LogReadJsonFailed e);; mret (JObj [])).


(** *** [write_editorconfig_file] *)

Definition newline : N := 10.

Definition EDITORCONFIG_CONTENT : pystr := Eval cbv in
  lit "# EditorConfig is awesome: https://EditorConfig.org" ++ [newline]
  ++ [newline]
  ++ lit "# top-most EditorConfig file" ++ [newline]
  ++ lit "root = true" ++ [newline]
  ++ [newline]
  ++ lit "[*]" ++ [newline]
  ++ lit "indent_style = space" ++ [newline]
  ++ lit "indent_size = 4" ++ [newline]
  ++ lit "end_of_line = crlf" ++ [newline]
  ++ lit "trim_trailing_whitespace = true" ++ [newline]
  ++ lit "insert_final_newline = true" ++ [newline].

Definition dot_editorconfig : pystr := Eval cbv in lit ".editorconfig".

Definition write_editorconfig_file (output_dir : pystr) : io unit :=
  let editorconfig_path := os_path_join output_dir dot_editorconfig in
  io_try
    (present ← run_py (path_exists editorconfig_path);
     if (present : bool) then say (EditorconfigExists editorconfig_path)
     else
       run_py (text_write_file editorconfig_path EDITORCONFIG_CONTENT);;
       say (EditorconfigWritten editorconfig_path))
    (fun e => say (EditorconfigFailed e)).

(** *** [find_first_uvprojx], [parse_keil_config] and the two wrappers *)

Definition find_first_uvprojx (src_dir : pystr) (tree : option fstree)
    : io (option pystr) :=
  let files := find_uvprojx_files src_dir tree in
  match files with
  | [] => log_warning (LogNoProjectFile src_dir);; mret None
  | first :: _ => mret (Some first)
  end.

(** Truth value of what [generate_vscode_config_from_file] returns: [None]
    and the empty dict are false. *)
Definition data_truthy (data : option pydict) : bool :=
  match data with
  | Some (_ :: _) => true
  | _ => false
  end.

Definition parse_keil_config (uvprojx_path config_name : pystr)
    : io (option pydict) :=
  data ← run_py (generate_vscode_config_from_file uvprojx_path config_name);
  if negb (data_truthy data) then
    log_error (LogExtractionFailed uvprojx_path);; mret None
  else mret data.



(* ------------------------------------------------------------------ *)
(** ** Notions for the further properties *)

(** The elements of a tree in document order. *)
Fixpoint preorder (e : element) : list element :=
  match e with
  | Element _ _ cs => e :: List.flat_map preorder cs
  end.

(** The elements strictly below [e], in document order. *)
Definition below (e : element) : list element :=
  List.flat_map preorder (children e).

(** The list a field node gives: its text cut into [pieces], or nothing
    when the node or its text is missing or empty. *)
Definition field_list (pieces : pystr -> list pystr) (n : option element)
    : list pystr :=
  match n ≫= text with
  | Some t => if str_truthy t then pieces t else []
  | None => []
  end.

(** The record extraction builds from a Cads node. *)
Definition extracted_from (cads_node : element) : pydict :=
  [ (k_includePath,
     str_list (field_list include_paths
                 (find cads_node [Descendant t_VariousControls; Child t_IncludePath])));
    (k_defines,
     str_list (field_list define_symbols
                 (find cads_node [Descendant t_VariousControls; Child t_Define]))) ].

(** A project with two targets, the first one that of [demo_project]. *)
Definition two_targets_project : element :=
  Element (lit "Project") None
    [ Element (lit "Targets") None
        [ Element (lit "Target") None
            [ Element (lit "TargetName") (Some (lit "demo")) [];
              demo_cads ];
          Element (lit "Target") None
            [ Element (lit "TargetName") (Some (lit "release")) [];
              Element t_Cads None
                [ Element t_VariousControls None
                    [ Element t_Define (Some (lit "NDEBUG")) [] ] ] ] ] ].

(** A Cads node whose IncludePath sits directly under it. *)
Definition misplaced_cads : element :=
  Element t_Cads None
    [ Element t_IncludePath (Some (lit "inc")) [];
      Element t_VariousControls None
        [ Element (lit "MiscControls") (Some (lit "-O2")) [] ] ].



(** The documents on which ['configurations' in content] is true, or fails,
    although they are no mappings: a number, a boolean or null; a string
    with [configurations] somewhere in it; a list with the string
    [configurations] among its items. *)
Inductive membership_misleads : json -> Prop :=
| misleads_null : membership_misleads JNull
| misleads_bool (b : bool) : membership_misleads (JBool b)
| misleads_int (n : Z) : membership_misleads (JInt n)
| misleads_float (x : pystr) : membership_misleads (JFloat x)
| misleads_str (a b : pystr) :
    membership_misleads (JStr (a ++ k_configurations ++ b))
| misleads_list (l : list json) :
    JStr k_configurations ∈ l -> membership_misleads (JArr l).

(** [names] leads from a directory down to a regular file. *)
Inductive file_at : fstree -> list pystr -> Prop :=
| file_here (entries : list (pystr * fstree)) (name : pystr) :
    (name, FsFile) ∈ entries -> file_at (FsDir entries) [name]
| file_below (entries : list (pystr * fstree)) (name : pystr) (sub : fstree)
    (rest : list pystr) :
    (name, sub) ∈ entries -> file_at sub rest ->
    file_at (FsDir entries) (name :: rest).

(** The path [os.path.join] builds from [top] along [names]. *)
Definition joined (top : pystr) (names : list pystr) : pystr :=
  foldl os_path_join top names.

(** The project files one directory of the walk contributes. *)
Definition matches_in (root : pystr) (files : list pystr) : list pystr :=
  os_path_join root <$> List.filter (fun file => endswith file uvprojx_suffix) files.

(** The names of the entries of a directory that are not directories. *)
Definition nondirs (entries : list (pystr * fstree)) : list pystr :=
  (List.filter (fun e => negb (is_dir e.2)) entries).*1.

(** A listing with project files at several depths. *)
Definition demo_tree : fstree :=
  FsDir [ (lit "build.uvprojx", FsDir [ (lit "old.uvprojx", FsFile) ]);
          (lit "README.md", FsFile);
          (lit "MDK-ARM", FsDir [ (lit "app.uvprojx", FsFile);
                                  (lit "APP.UVPROJX", FsFile) ]);
          (lit "top.uvprojx", FsFile) ].

(** Unfolds the plumbing of [io]. *)
Ltac run_io :=
  unfold mbind, io_bind, mret, io_ret, io_try, run_py, say,
    log_info, log_warning, log_error, log;
  cbn [files out err fst snd].
(* ------------------------------------------------------------------ *)
(** * Theorems *)

(** ** Strings *)

Lemma pystr_eqb_eq (a b : pystr) : pystr_eqb a b = true ↔ a = b.
Proof. unfold pystr_eqb. apply bool_decide_eq_true. Qed.

Lemma pystr_eqb_refl (a : pystr) : pystr_eqb a a = true.
Proof. by apply pystr_eqb_eq. Qed.

Lemma pystr_eqb_ne (a b : pystr) : a ≠ b → pystr_eqb a b = false.
Proof. unfold pystr_eqb. apply bool_decide_eq_false. Qed.

Lemma startswith_prefix (s pre : pystr) :
  startswith s pre = true ↔ pre `prefix_of` s.
Proof.
  revert s. induction pre as [|c pre IH]; intros s; simpl.
  - split; [intros _; apply prefix_nil | done].
  - destruct s as [|d s].
    + split; [done | intros [k Hk]; discriminate].
    + rewrite andb_true_iff, N.eqb_eq, IH. split.
      * intros [-> H]. by apply prefix_cons.
      * intros [k Hk]. injection Hk as -> ->. split; [done | by exists k].
Qed.

Lemma startswith_false (s pre : pystr) :
  startswith s pre = false ↔ ¬ pre `prefix_of` s.
Proof. rewrite <- startswith_prefix. by destruct (startswith s pre). Qed.

Lemma strip_parents_stop (fuel : nat) (s : pystr) :
  startswith s parent_prefix = false → strip_parents fuel s = s.
Proof.
  intros H. destruct fuel as [|fuel]; [done |].
  cbn [strip_parents]. by rewrite H.
Qed.

Lemma strip_parents_more (fuel : nat) (s : pystr) :
  strip_parents (S fuel) (parent_prefix ++ s) = strip_parents fuel s.
Proof. reflexivity. Qed.

(** Once the fuel covers the length, more fuel changes nothing: the loop
    has stopped on its own condition. *)
Lemma strip_parents_fuel (n m : nat) (s : pystr) :
  (length s ≤ n)%nat → (length s ≤ m)%nat → strip_parents n s = strip_parents m s.
Proof.
  revert m s. induction n as [|n IH]; intros m s Hn Hm.
  - destruct s; [| simpl in Hn; lia]. by destruct m.
  - destruct (startswith s parent_prefix) eqn:E.
    + apply startswith_prefix in E as [t ->].
      rewrite length_app in Hn, Hm. simpl in Hn, Hm.
      destruct m as [|m]; [lia |].
      rewrite !strip_parents_more. apply IH; lia.
    + by rewrite !strip_parents_stop.
Qed.

Lemma strip_parents_stripped (n : nat) (s : pystr) :
  (length s ≤ n)%nat → parents_stripped s (strip_parents n s).
Proof.
  revert s. induction n as [|n IH]; intros s Hn.
  - destruct s; [| simpl in Hn; lia]. simpl. constructor.
    by apply startswith_false.
  - destruct (startswith s parent_prefix) eqn:E.
    + apply startswith_prefix in E as [t ->].
      rewrite strip_parents_more. constructor. apply IH.
      rewrite length_app in Hn. simpl in Hn. lia.
    + rewrite strip_parents_stop by done. constructor. by apply startswith_false.
Qed.

Lemma parents_stripped_fun (s r : pystr) :
  parents_stripped s r → r = strip_parents (length s) s.
Proof.
  induction 1 as [s H | s r _ IH].
  - symmetry. apply strip_parents_stop. by apply startswith_false.
  - rewrite IH. simpl length. rewrite strip_parents_more.
    apply strip_parents_fuel; lia.
Qed.

Lemma parents_stripped_no_prefix (s r : pystr) :
  parents_stripped s r → ¬ parent_prefix `prefix_of` r.
Proof. by induction 1. Qed.

Lemma parents_stripped_suffix (s r : pystr) :
  parents_stripped s r → r `suffix_of` s.
Proof.
  induction 1 as [s H | s r _ IH]; [done |].
  by apply suffix_app_r.
Qed.

Lemma replace_char_replaced (s : pystr) :
  backslashes_replaced s (replace_char backslash slash s).
Proof.
  split; [apply length_fmap |].
  intros i c H. unfold replace_char.
  rewrite list_lookup_fmap, H. simpl.
  f_equal. case_decide as E.
  - subst c. reflexivity.
  - apply N.eqb_neq in E. by rewrite E.
Qed.

Lemma backslashes_replaced_fun (s r : pystr) :
  backslashes_replaced s r → r = replace_char backslash slash s.
Proof.
  intros [Hlen H]. apply list_eq. intros i.
  destruct (replace_char_replaced s) as [Hlen' H'].
  destruct (s !! i) as [c|] eqn:E.
  - by rewrite (H _ _ E), (H' _ _ E).
  - apply lookup_ge_None in E.
    rewrite !(proj2 (lookup_ge_None _ _)); [done | lia | lia].
Qed.

Lemma replace_char_id (old new : N) (s : pystr) :
  old ∉ s → replace_char old new s = s.
Proof.
  induction s as [|c s IH]; intros H; [done |].
  apply not_elem_of_cons in H as [Hc Hs]. simpl.
  rewrite IH by done. destruct (N.eqb_spec c old); [congruence | done].
Qed.

Lemma replace_char_gone (s : pystr) :
  backslash ∉ replace_char backslash slash s.
Proof.
  induction s as [|c s IH]; simpl; [apply not_elem_of_nil |].
  apply not_elem_of_cons. split; [| done].
  destruct (N.eqb_spec c backslash); [done | congruence].
Qed.

Lemma normalize_stripped (path : pystr) :
  parents_stripped (replace_char backslash slash path)
    (normalize_and_clean_path path).
Proof. unfold normalize_and_clean_path. by apply strip_parents_stripped. Qed.

(** C3.  [normalize_and_clean_path] is a total function, and its result is
    exactly the string one gets by replacing every backslash with a slash
    and then removing leading "../" for as long as the string starts with
    it: any string obtained that way is the result, and the result is
    obtained that way.  Nothing else is changed. *)
Theorem normalize_and_clean_path_exact (path r : pystr) :
  (∃ mid, backslashes_replaced path mid ∧ parents_stripped mid r)
  ↔ r = normalize_and_clean_path path.
Proof.
  split.
  - intros (mid & Hmid & Hr). apply backslashes_replaced_fun in Hmid as ->.
    by apply parents_stripped_fun.
  - intros ->. eexists. split; [apply replace_char_replaced |].
    apply normalize_stripped.
Qed.

Lemma normalize_and_clean_path_exact_witness :
  normalize_and_clean_path (lit "..\..\drv\inc") = lit "drv/inc".
Proof.
  symmetry.
  apply (proj1 (normalize_and_clean_path_exact (lit "..\..\drv\inc")
                  (lit "drv/inc"))).
  exists (lit "../../drv/inc"). split.
  - split; [reflexivity |].
    intros i c Hi.
    do 13 (destruct i as [|i]; [injection Hi as <-; reflexivity |]).
    discriminate Hi.
  - apply (stripped_more (lit "../drv/inc")), (stripped_more (lit "drv/inc")).
    apply stripped_done. intros [k Hk]. discriminate Hk.
Defined.

Lemma normalize_no_backslash (path : pystr) :
  backslash ∉ normalize_and_clean_path path.
Proof.
  destruct (parents_stripped_suffix _ _ (normalize_stripped path)) as [k Hk].
  intros Hin. apply (replace_char_gone path). rewrite Hk.
  apply elem_of_app. by right.
Qed.

Lemma normalize_no_parent_prefix (path : pystr) :
  ¬ parent_prefix `prefix_of` normalize_and_clean_path path.
Proof. apply (parents_stripped_no_prefix _ _ (normalize_stripped path)). Qed.

(** A path without backslashes and without a leading "../" is left as it
    is. *)
Lemma normalize_fixpoint (s : pystr) :
  backslash ∉ s → ¬ parent_prefix `prefix_of` s →
  normalize_and_clean_path s = s.
Proof.
  intros Hb Hp. unfold normalize_and_clean_path.
  rewrite replace_char_id by done.
  apply strip_parents_stop. by apply startswith_false.
Qed.

(** C9.  Normalizing twice is the same as normalizing once. *)
Theorem normalize_and_clean_path_idempotent (s : pystr) :
  normalize_and_clean_path (normalize_and_clean_path s)
  = normalize_and_clean_path s.
Proof.
  apply normalize_fixpoint;
    [apply normalize_no_backslash | apply normalize_no_parent_prefix].
Qed.

Example normalize_keeps_inner_parents :
  normalize_and_clean_path (lit "..\Drivers\..\Inc//x") = lit "Drivers/../Inc//x".
Proof. reflexivity. Qed.

Example normalize_keeps_case :
  normalize_and_clean_path (lit "../Core/INC") = lit "Core/INC".
Proof. reflexivity. Qed.

(** ** Splitting and trimming *)

Lemma split_not_nil (sep : N) (s : pystr) : split sep s ≠ [].
Proof.
  destruct s as [|c s]; simpl; [done |].
  destruct (c =? sep); [done |]. by destruct (split sep s).
Qed.

(** Splitting loses nothing: joining the pieces gives the text back. *)
Lemma join_split (sep : N) (s : pystr) : join sep (split sep s) = s.
Proof.
  induction s as [|c s IH]; [done |]. simpl.
  destruct (N.eqb_spec c sep) as [-> | Hne].
  - pose proof (split_not_nil sep s) as Hnil.
    destruct (split sep s) as [|p ps] eqn:E; [done |].
    by rewrite <- IH.
  - pose proof (split_not_nil sep s) as Hnil.
    destruct (split sep s) as [|p ps] eqn:E; [done |].
    destruct ps as [|q ps]; cbn [join] in *; by rewrite <- IH.
Qed.

(** No piece holds the separator. *)
Lemma split_pieces (sep : N) (s : pystr) :
  Forall (fun piece => sep ∉ piece) (split sep s).
Proof.
  induction s as [|c s IH]; simpl.
  - constructor; [apply not_elem_of_nil | constructor].
  - destruct (N.eqb_spec c sep) as [-> | Hne].
    + constructor; [apply not_elem_of_nil | done].
    + destruct (split sep s) as [|p ps].
      * constructor; [| constructor].
        apply not_elem_of_cons. split; [congruence | apply not_elem_of_nil].
      * inversion IH as [|? ? Hp Hps]; subst. constructor; [| done].
        apply not_elem_of_cons. split; [congruence | done].
Qed.

Lemma lstrip_spec (s : pystr) :
  ∃ ws, s = ws ++ lstrip s ∧ Forall (fun c => isspace c = true) ws
        ∧ ∀ c, head (lstrip s) = Some c → isspace c = false.
Proof.
  induction s as [|c s (ws & Hs & Hws & Hhead)].
  - exists []. by repeat split.
  - simpl. destruct (isspace c) eqn:E.
    + exists (c :: ws). split; [simpl; by rewrite <- Hs |].
      split; [by constructor | done].
    + exists []. split; [done |]. split; [constructor |].
      intros c' [= <-]. done.
Qed.

Lemma last_rev {A} (l : list A) : last (rev l) = head l.
Proof. destruct l as [|x l]; [done |]. simpl. apply last_snoc. Qed.

(** Trimming removes whitespace at both ends and nothing else. *)
Lemma strip_spec (s : pystr) :
  ∃ before after,
    s = before ++ strip s ++ after
    ∧ Forall (fun c => isspace c = true) before
    ∧ Forall (fun c => isspace c = true) after
    ∧ (∀ c, head (strip s) = Some c → isspace c = false)
    ∧ (∀ c, last (strip s) = Some c → isspace c = false).
Proof.
  destruct (lstrip_spec s) as (before & Hs & Hbefore & Hhead).
  destruct (lstrip_spec (rev (lstrip s))) as (after & Hr & Hafter & Hlast).
  exists before, (rev after). unfold strip, rstrip.
  assert (lstrip s = rev (lstrip (rev (lstrip s))) ++ rev after) as Hmid.
  { rewrite <- rev_app_distr, <- Hr. by rewrite rev_involutive. }
  split; [by rewrite <- Hmid |].
  split; [done |].
  split; [by apply Forall_rev |].
  split.
  - intros c Hc. apply Hhead. rewrite Hmid.
    destruct (rev (lstrip (rev (lstrip s)))); [done | exact Hc].
  - intros c Hc. apply Hlast. by rewrite <- last_rev.
Qed.

Lemma str_truthy_nonempty (s : pystr) : str_truthy s = true ↔ s ≠ [].
Proof. by destruct s. Qed.

(** The comprehension [[f(p.strip()) for p in pieces if p.strip()]] is the
    pipeline trim, discard empties, apply [f]. *)
Lemma comprehension_pipeline {B} (f : pystr → B) (pieces : list pystr) :
  (fun p => f (strip p)) <$> List.filter (fun p => str_truthy (strip p)) pieces
  = f <$> filter (fun piece => piece ≠ []) (strip <$> pieces).
Proof.
  induction pieces as [|p ps IH]; [done |].
  rewrite fmap_cons, filter_cons. simpl.
  destruct (str_truthy (strip p)) eqn:E.
  - apply str_truthy_nonempty in E. rewrite decide_True by done.
    rewrite !fmap_cons. by rewrite IH.
  - rewrite decide_False; [done |].
    intros H. apply str_truthy_nonempty in H. congruence.
Qed.

Lemma include_paths_pipeline (t : pystr) :
  include_paths t = normalize_and_clean_path <$> trimmed_pieces semicolon t.
Proof. apply comprehension_pipeline. Qed.

Lemma define_symbols_pipeline (t : pystr) :
  define_symbols t = trimmed_pieces comma t.
Proof.
  unfold define_symbols, trimmed_pieces.
  rewrite (comprehension_pipeline (fun d => d)). apply list_fmap_id.
Qed.

(** ** Searching the element tree *)

Lemma element_tree_ind (P : element → Prop) :
  (∀ t x cs, Forall P cs → P (Element t x cs)) → ∀ e, P e.
Proof.
  intros step. fix IH 1. intros [t x cs]. apply step.
  induction cs as [|c cs IHcs]; constructor; [apply IH | exact IHcs].
Qed.

Lemma elem_of_flat_map {A B} (f : A → list B) (l : list A) (y : B) :
  y ∈ List.flat_map f l ↔ ∃ x, x ∈ l ∧ y ∈ f x.
Proof.
  rewrite list_elem_of_In, in_flat_map. split.
  - intros (x & Hx & Hy). exists x. by rewrite !list_elem_of_In.
  - intros (x & Hx & Hy). exists x. by rewrite <- !list_elem_of_In.
Qed.

Lemma descendant_inv (e x : element) :
  descendant e x ↔ ∃ c, c ∈ children e ∧ (x = c ∨ descendant c x).
Proof.
  split.
  - intros H. inversion H; subst; eauto.
  - intros (c & Hc & [-> | Hd]).
    + by apply descendant_child.
    + by eapply descendant_deeper.
Qed.

(** [iter] yields exactly the element and its descendants with the tag. *)
Lemma elem_of_iter (t : pystr) (e x : element) :
  x ∈ iter t e ↔ tag x = t ∧ (x = e ∨ descendant e x).
Proof.
  revert x. induction e as [t' tx cs IH] using element_tree_ind. intros x.
  cbn [iter]. rewrite elem_of_app, elem_of_flat_map.
  rewrite descendant_inv. cbn [children]. split.
  - intros [Hx | (c & Hc & Hx)].
    + destruct (pystr_eqb t' t) eqn:E; [| by apply elem_of_nil in Hx].
      apply list_elem_of_singleton in Hx as ->.
      apply pystr_eqb_eq in E. auto.
    + rewrite Forall_forall in IH. apply IH in Hx as [Ht Hx]; [| done].
      split; [done |]. right. by exists c.
  - intros [Ht [-> | (c & Hc & Hx)]].
    + left. simpl in Ht. subst t'. rewrite pystr_eqb_refl.
      by apply list_elem_of_singleton.
    + right. exists c. split; [done |].
      rewrite Forall_forall in IH. by apply IH.
Qed.

Lemma iterfind_descendant (t : pystr) (e : element) :
  iterfind e [Descendant t] = List.flat_map (iter t) (children e).
Proof. unfold iterfind. simpl. apply app_nil_r. Qed.

Lemma elem_of_iterfind_descendant (t : pystr) (e x : element) :
  x ∈ iterfind e [Descendant t] ↔ descendant e x ∧ tag x = t.
Proof.
  rewrite iterfind_descendant, elem_of_flat_map, descendant_inv. split.
  - intros (c & Hc & Hx). apply elem_of_iter in Hx as [Ht Hx]. eauto.
  - intros [(c & Hc & Hx) Ht]. exists c. split; [done |].
    by apply elem_of_iter.
Qed.

Lemma find_descendant_Some (t : pystr) (e c : element) :
  find e [Descendant t] = Some c → descendant e c ∧ tag c = t.
Proof.
  unfold find. intros H. apply elem_of_iterfind_descendant.
  destruct (iterfind e [Descendant t]) as [|y l]; [done |].
  injection H as ->. apply list_elem_of_here.
Qed.

Lemma find_descendant_None (t : pystr) (e : element) :
  find e [Descendant t] = None ↔ ∀ d, descendant e d → tag d ≠ t.
Proof.
  unfold find. split.
  - intros H d Hd Ht.
    assert (d ∈ iterfind e [Descendant t]) as Hin
      by by apply elem_of_iterfind_descendant.
    destruct (iterfind e [Descendant t]); [by apply elem_of_nil in Hin | done].
  - intros H. destruct (iterfind e [Descendant t]) as [|y l] eqn:E; [done |].
    assert (y ∈ iterfind e [Descendant t]) as Hin
      by (rewrite E; apply list_elem_of_here).
    apply elem_of_iterfind_descendant in Hin as [Hd Ht]. by destruct (H y).
Qed.

(** ** Extraction *)

Lemma dict_get_set_eq (k : pystr) (v : json) (d : pydict) :
  dict_get k (dict_set k v d) = Some v.
Proof.
  induction d as [|[k' v'] d IH]; simpl.
  - by rewrite pystr_eqb_refl.
  - destruct (pystr_eqb k' k) eqn:E; simpl; by rewrite E.
Qed.

Lemma dict_get_set_ne (k k' : pystr) (v : json) (d : pydict) :
  k ≠ k' → dict_get k' (dict_set k v d) = dict_get k' d.
Proof.
  intros Hne. induction d as [|[k0 v0] d IH]; simpl.
  - by rewrite pystr_eqb_ne.
  - destruct (pystr_eqb k0 k) eqn:E; simpl; [| by rewrite IH].
    apply pystr_eqb_eq in E as ->. by rewrite pystr_eqb_ne.
Qed.

(** The record extraction builds from a Cads node. *)
Lemma generate_from_cads (input_filepath config_name : pystr) (w : world)
    (root cads_node : element) :
  fs w !! input_filepath = Some (File (Xml root)) →
  find root [Descendant t_Cads] = Some cads_node →
  ∃ extracted,
    generate_vscode_config_from_file input_filepath config_name w
    = (Returned (Some extracted), w)
    ∧ dict_get k_includePath extracted
      = Some (match find cads_node [Descendant t_VariousControls; Child t_IncludePath]
                    ≫= text with
              | Some (c :: t) => str_list (include_paths (c :: t))
              | _ => JArr []
              end)
    ∧ dict_get k_defines extracted
      = Some (match find cads_node [Descendant t_VariousControls; Child t_Define]
                    ≫= text with
              | Some (c :: t) => str_list (define_symbols (c :: t))
              | _ => JArr []
              end).
Proof.
  intros Hfs Hcads.
  unfold generate_vscode_config_from_file, try_except, mbind, py_bind, ET_parse.
  rewrite Hfs, Hcads.
  eexists. split; [reflexivity |].
  destruct (find cads_node [_; Child t_IncludePath]) as [[tp [[|c1 t1]|] cp]|];
    destruct (find cads_node [_; Child t_Define]) as [[td [[|c2 t2]|] cd]|];
    simpl; auto.
Qed.

(** C4.  When the project file parses and has a Cads node, extraction
    returns a record.  If the IncludePath field of that node has non-empty
    text, the record's [includePath] is that text split on [;], each piece
    trimmed, empty pieces discarded, each remaining piece normalized, in the
    original order.  If the Define field has non-empty text, the record's
    [defines] is that text split on [,], trimmed, empties discarded, in the
    original order and without normalization. *)
Theorem extraction_splits_in_order
    (input_filepath config_name : pystr) (w : world) (root cads_node : element) :
  fs w !! input_filepath = Some (File (Xml root)) →
  find root [Descendant t_Cads] = Some cads_node →
  ∃ extracted,
    generate_vscode_config_from_file input_filepath config_name w
    = (Returned (Some extracted), w)
    ∧ (∀ n t,
         find cads_node [Descendant t_VariousControls; Child t_IncludePath] = Some n →
         text n = Some t → t ≠ [] →
         dict_get k_includePath extracted
         = Some (str_list (normalize_and_clean_path <$> trimmed_pieces semicolon t)))
    ∧ (∀ n t,
         find cads_node [Descendant t_VariousControls; Child t_Define] = Some n →
         text n = Some t → t ≠ [] →
         dict_get k_defines extracted
         = Some (str_list (trimmed_pieces comma t))).
Proof.
  intros Hfs Hcads.
  destruct (generate_from_cads _ config_name _ _ _ Hfs Hcads)
    as (extracted & Hrun & Hinc & Hdef).
  exists extracted. split; [exact Hrun |]. split.
  - intros n t Hn Ht Hne. rewrite Hinc, Hn. simpl. rewrite Ht.
    destruct t as [|c t]; [done |]. by rewrite include_paths_pipeline.
  - intros n t Hn Ht Hne. rewrite Hdef, Hn. simpl. rewrite Ht.
    destruct t as [|c t]; [done |]. by rewrite define_symbols_pipeline.
Qed.

Lemma extraction_splits_in_order_witness :
  ∃ extracted,
    generate_vscode_config_from_file demo_uvprojx (lit "demo") demo_world
    = (Returned (Some extracted), demo_world)
    ∧ dict_get k_includePath extracted
      = Some (str_list [lit "A"; lit "B"; lit "C"])
    ∧ dict_get k_defines extracted = Some (str_list [lit "X"; lit "Y"]).
Proof.
  destruct (extraction_splits_in_order demo_uvprojx (lit "demo") demo_world
              demo_project demo_cads eq_refl eq_refl)
    as (extracted & Hrun & Hinc & Hdef).
  exists extracted. split; [exact Hrun |]. split.
  - rewrite (Hinc (Element t_IncludePath (Some (lit "A;B;C")) []) (lit "A;B;C")
               eq_refl eq_refl ltac:(discriminate)).
    reflexivity.
  - rewrite (Hdef (Element t_Define (Some (lit "  X ,Y,  ")) []) (lit "  X ,Y,  ")
               eq_refl eq_refl ltac:(discriminate)).
    reflexivity.
Defined.

(** C7.  Extraction never raises.  It returns [None] exactly when the
    project file is missing, or is not XML, or cannot be read for another
    reason (here: the path is a directory), or parses to a tree in which no
    node below the root is tagged [Cads].  Otherwise it returns a record in
    which a field that is absent or empty is the empty list. *)
Theorem extraction_fails_exactly (input_filepath config_name : pystr) (w : world) :
  ∃ result printed,
    generate_vscode_config_from_file input_filepath config_name w
    = (Returned result, World (fs w) (stdout w ++ printed))
    ∧ (result = None ↔
         fs w !! input_filepath = None
         ∨ (∃ c, fs w !! input_filepath = Some (File c) ∧ ∀ root, c ≠ Xml root)
         ∨ fs w !! input_filepath = Some Directory
         ∨ (∃ root, fs w !! input_filepath = Some (File (Xml root))
                    ∧ ∀ d, descendant root d → tag d ≠ t_Cads))
    ∧ (∀ extracted, result = Some extracted →
         ∃ root cads_node,
           fs w !! input_filepath = Some (File (Xml root))
           ∧ find root [Descendant t_Cads] = Some cads_node
           ∧ (field_empty cads_node t_IncludePath →
              dict_get k_includePath extracted = Some (JArr []))
           ∧ (field_empty cads_node t_Define →
              dict_get k_defines extracted = Some (JArr []))).
Proof.
  destruct w as [files out].
  destruct (files !! input_filepath) as [[|[v|root|raw]]|] eqn:Hfs.
  - (* a directory *)
    exists None, [MsgExtractUnknownError IsADirectoryError]. split.
    { unfold generate_vscode_config_from_file, try_except, mbind, py_bind, ET_parse.
      simpl. by rewrite Hfs. }
    simpl. rewrite Hfs. split; [| done]. split; [auto | done].
  - (* JSON, not XML *)
    exists None, [MsgXmlParseError]. split.
    { unfold generate_vscode_config_from_file, try_except, mbind, py_bind, ET_parse.
      simpl. by rewrite Hfs. }
    simpl. rewrite Hfs. split; [| done]. split; [| done].
    intros _. right. left. by exists (Json v).
  - (* XML *)
    destruct (find root [Descendant t_Cads]) as [cads_node|] eqn:Hcads.
    + destruct (generate_from_cads input_filepath config_name
                  (World files out) root cads_node Hfs Hcads)
        as (extracted & Hrun & Hinc & Hdef).
      exists (Some extracted), []. split; [by rewrite app_nil_r |].
      simpl. rewrite Hfs. split.
      * split; [done |].
        intros [? | [(c & [= <-] & Hc) | [? | (r & [= <-] & Hr)]]]; try done.
        -- by destruct (Hc root).
        -- apply find_descendant_Some in Hcads as [Hd Ht]. by destruct (Hr _ Hd).
      * intros ? [= <-]. exists root, cads_node.
        split; [done |]. split; [done |]. split.
        -- intros Hempty. rewrite Hinc.
           destruct (find cads_node [_; Child t_IncludePath]) as [n|] eqn:Hn;
             [| done].
           simpl. by destruct (Hempty n Hn) as [-> | ->].
        -- intros Hempty. rewrite Hdef.
           destruct (find cads_node [_; Child t_Define]) as [n|] eqn:Hn;
             [| done].
           simpl. by destruct (Hempty n Hn) as [-> | ->].
    + exists None, []. split.
      { unfold generate_vscode_config_from_file, try_except, mbind, py_bind, ET_parse.
        simpl. rewrite Hfs, Hcads. by rewrite app_nil_r. }
      simpl. rewrite Hfs. split; [| done]. split; [| done].
      intros _. do 3 right. exists root. split; [done |].
      by apply find_descendant_None.
  - (* other text *)
    exists None, [MsgXmlParseError]. split.
    { unfold generate_vscode_config_from_file, try_except, mbind, py_bind, ET_parse.
      simpl. by rewrite Hfs. }
    simpl. rewrite Hfs. split; [| done]. split; [| done].
    intros _. right. left. by exists (Text raw).
  - (* no such file *)
    exists None, [MsgProjectFileNotFound input_filepath]. split.
    { unfold generate_vscode_config_from_file, try_except, mbind, py_bind, ET_parse.
      simpl. by rewrite Hfs. }
    simpl. rewrite Hfs. split; [| done]. split; [auto | done].
Qed.

Lemma extraction_fails_exactly_witness :
  ∃ printed,
    generate_vscode_config_from_file demo_uvprojx (lit "demo") assembly_world
    = (Returned None, World (fs assembly_world) printed).
Proof.
  destruct (extraction_fails_exactly demo_uvprojx (lit "demo") assembly_world)
    as (result & printed & Hrun & Hfails & _).
  exists printed. rewrite Hrun.
  assert (result = None) as ->; [| reflexivity].
  apply Hfails. do 3 right. exists assembly_project.
  split; [apply lookup_singleton_eq |].
  by apply find_descendant_None.
Defined.

(** The search is below the root: a file whose root element is itself
    tagged [Cads], with none nested in it, has no node for [.//Cads]. *)
Example cads_at_the_root_is_not_found :
  generate_vscode_config_from_file demo_uvprojx (lit "demo")
    (World {[ demo_uvprojx := File (Xml demo_cads) ]} [])
  = (Returned None, World {[ demo_uvprojx := File (Xml demo_cads) ]} []).
Proof.
  unfold generate_vscode_config_from_file, ET_parse. run.
  by rewrite lookup_singleton_eq.
Qed.

(** ** Ensure-exists *)









(** ** Dicts *)

Lemma dict_set_set (k : pystr) (v v' : json) (d : pydict) :
  dict_set k v' (dict_set k v d) = dict_set k v' d.
Proof.
  induction d as [|[k0 v0] d IH]; simpl.
  - by rewrite pystr_eqb_refl.
  - destruct (pystr_eqb k0 k) eqn:E; simpl; rewrite E; [done | by rewrite IH].
Qed.

Lemma dict_set_id (k : pystr) (v : json) (d : pydict) :
  dict_get k d = Some v → dict_set k v d = d.
Proof.
  induction d as [|[k0 v0] d IH]; simpl; [done |].
  destruct (pystr_eqb k0 k); [by intros [= ->] | intros H; by rewrite IH].
Qed.




Lemma with_new_data_includePath (new_data entry : pydict) :
  dict_get k_includePath (with_new_data new_data entry)
  = Some (new_includePath new_data).
Proof.
  unfold with_new_data. rewrite dict_get_set_ne by done. apply dict_get_set_eq.
Qed.

Lemma with_new_data_defines (new_data entry : pydict) :
  dict_get k_defines (with_new_data new_data entry) = Some (new_defines new_data).
Proof. apply dict_get_set_eq. Qed.

Lemma with_new_data_name (new_data entry : pydict) :
  dict_get k_name (with_new_data new_data entry) = dict_get k_name entry.
Proof. unfold with_new_data. by rewrite !dict_get_set_ne by done. Qed.


Lemma with_new_data_idemp (new_data entry : pydict) :
  with_new_data new_data (with_new_data new_data entry)
  = with_new_data new_data entry.
Proof.
  unfold with_new_data at 1.
  rewrite (dict_set_id k_includePath) by apply with_new_data_includePath.
  apply dict_set_id, with_new_data_defines.
Qed.

(** ** The search loop *)

Lemma eq_str_true (x : option json) (s : pystr) :
  eq_str x s = true ↔ x = Some (JStr s).
Proof.
  destruct x as [[| | | |t| |]|]; simpl; try by split.
  rewrite pystr_eqb_eq. split; [by intros -> | by intros [= ->]].
Qed.

Lemma named_JObj (config_name : pystr) (d : pydict) :
  named config_name (JObj d) ↔ dict_get k_name d = Some (JStr config_name).
Proof.
  split; [by intros (d' & [= <-] & H) | intros H; by exists d].
Qed.

Lemma find_config_found (config_name : pystr) (configs : list json) (k i : nat) :
  find_config config_name configs k = inr (Some i) →
  ∃ (j : nat) entry,
    i = (k + j)%nat ∧ first_named config_name configs j entry
    ∧ ∀ (j' : nat) x, (j' < j)%nat → configs !! j' = Some x → is_entry x.
Proof.
  revert k. induction configs as [|config rest IH]; intros k; simpl; [done |].
  destruct config as [| | | | | |d]; simpl; try done.
  destruct (eq_str (dict_get k_name d) config_name) eqn:E.
  - intros [= <-]. apply eq_str_true in E. exists 0%nat, d.
    split; [lia |]. split; [| intros; lia].
    split; [done |]. split; [done | intros; lia].
  - intros H. apply IH in H as (j & entry & -> & (Hj & Hname & Hfirst) & Hentries).
    exists (S j), entry. split; [lia |]. split.
    + split; [done |]. split; [done |].
      intros [|j'] x Hlt Hx; simpl in Hx.
      * injection Hx as <-. rewrite named_JObj, <- eq_str_true. by rewrite E.
      * apply (Hfirst j'); [lia | done].
    + intros [|j'] x Hlt Hx; simpl in Hx.
      * injection Hx as <-. by exists d.
      * apply (Hentries j'); [lia | done].
Qed.

Lemma find_config_none (config_name : pystr) (configs : list json) (k : nat) :
  find_config config_name configs k = inr None →
  ∀ x, x ∈ configs → is_entry x ∧ ¬ named config_name x.
Proof.
  revert k. induction configs as [|config rest IH]; intros k; simpl.
  - intros _ x Hx. by apply elem_of_nil in Hx.
  - destruct config as [| | | | | |d]; simpl; try done.
    destruct (eq_str (dict_get k_name d) config_name) eqn:E; [done |].
    intros H x Hx. apply elem_of_cons in Hx as [-> | Hx].
    + split; [by exists d |]. rewrite named_JObj, <- eq_str_true. by rewrite E.
    + by apply (IH (S k)).
Qed.

Lemma find_config_raises (config_name : pystr) (configs : list json) (k : nat)
    (e : exn) :
  find_config config_name configs k = inl e →
  e = AttributeError ∧ ∃ x, x ∈ configs ∧ ¬ is_entry x.
Proof.
  revert k. induction configs as [|config rest IH]; intros k; simpl; [done |].
  destruct config as [| | | | | |d]; simpl;
    try (intros [= <-]; split; [done |]; eexists; split;
         [apply list_elem_of_here | by intros [? ?]]).
  destruct (eq_str (dict_get k_name d) config_name); [done |].
  intros H. apply IH in H as (-> & x & Hx & Hno). split; [done |].
  exists x. split; [by apply list_elem_of_further | done].
Qed.

Lemma find_config_first (config_name : pystr) (configs : list json)
    (k j : nat) (entry : pydict) :
  first_named config_name configs j entry →
  (∀ (j' : nat) x, (j' < j)%nat → configs !! j' = Some x → is_entry x) →
  find_config config_name configs k = inr (Some (k + j)%nat).
Proof.
  revert k j. induction configs as [|config rest IH];
    intros k j (Hj & Hname & Hfirst) Hentries; [done |].
  destruct j as [|j]; simpl in Hj.
  - injection Hj as ->. simpl.
    rewrite (proj2 (eq_str_true _ _) Hname). f_equal. f_equal. lia.
  - destruct (Hentries 0%nat config) as [d ->]; [lia | done |].
    simpl. destruct (eq_str (dict_get k_name d) config_name) eqn:E.
    + apply eq_str_true in E. destruct (Hfirst 0%nat (JObj d)); [lia | done |].
      by apply named_JObj.
    + rewrite (IH (S k) j).
      * f_equal. f_equal. lia.
      * split; [done |]. split; [done |].
        intros j' x Hlt Hx. apply (Hfirst (S j')); [lia | done].
      * intros j' x Hlt Hx. apply (Hentries (S j')); [lia | done].
Qed.



(** ** Running the merge *)

(** The document a successful merge writes. *)
Lemma merged_twice (i : nat) (new_data entry d : pydict) (configs : list json) :
  configs !! i = Some (JObj entry) →
  dict_get k_configurations d = Some (JArr configs) →
  (content ← mutate [Key k_configurations; Index i]
               (setitem k_includePath (new_includePath new_data)) (JObj d);
   mutate [Key k_configurations; Index i]
     (setitem k_defines (new_defines new_data)) content)
  = Some (JObj (dict_set k_configurations
                  (JArr (<[i := JObj (with_new_data new_data entry)]> configs)) d)).
Proof.
  intros Hi Hd. cbn [mutate select]. rewrite Hd. cbn [select]. rewrite Hi.
  cbn [setitem put mbind option_bind mutate select].
  rewrite dict_get_set_eq. cbn [select].
  rewrite list_lookup_insert_eq by (by eapply lookup_lt_Some).
  cbn [setitem put]. by rewrite dict_set_set, list_insert_insert_eq.
Qed.

Section merge.
Context (new_data : pydict) (output_filepath config_name : pystr).
Context (w : world) (d : pydict) (configs : list json).
Hypothesis Hfile : fs w !! output_filepath = Some (File (Json (JObj d))).
Hypothesis Hlist : dict_get k_configurations d = Some (JArr configs).

Lemma update_found (i : nat) (entry : pydict) :
  find_config config_name configs 0 = inr (Some i) →
  configs !! i = Some (JObj entry) →
  update_c_cpp_properties new_data output_filepath config_name w
  = merge_wrote w output_filepath d
      (<[i := JObj (with_new_data new_data entry)]> configs)
      [MsgUpdated config_name].
Proof using Hfile Hlist.
  intros Hfind Hi. unfold update_c_cpp_properties. run.
  rewrite Hfile. cbn [negb]. rewrite Hfile.
  cbn [py_contains py_getitem]. rewrite Hlist. run.
  cbn [negb is_list items]. rewrite Hfind. run.
  pose proof (merged_twice i new_data entry d configs Hi Hlist) as Hm.
  unfold new_includePath, new_defines in Hm.
  destruct (mutate _ (setitem k_includePath _) _) as [content|]; [| done].
  cbn [mbind option_bind] in Hm. rewrite Hm.
  by rewrite Hfile.
Qed.

Lemma update_appended :
  find_config config_name configs 0 = inr None →
  update_c_cpp_properties new_data output_filepath config_name w
  = merge_wrote w output_filepath d
      (configs ++ [JObj (with_new_data new_data (new_configuration config_name))])
      [MsgCreateConfig config_name; MsgUpdated config_name].
Proof using Hfile Hlist.
  intros Hfind. unfold update_c_cpp_properties. run.
  rewrite Hfile. cbn [negb]. rewrite Hfile.
  cbn [py_contains py_getitem]. rewrite Hlist. run.
  cbn [negb is_list items]. rewrite Hfind. run.
  cbn [mutate select]. rewrite Hlist. cbn [append put fs stdout].
  pose proof (merged_twice (length configs) new_data
                (new_configuration config_name)
                (dict_set k_configurations
                   (JArr (configs ++ [JObj (new_configuration config_name)])) d)
                (configs ++ [JObj (new_configuration config_name)])) as Hm.
  rewrite dict_get_set_eq in Hm.
  rewrite lookup_app_r, Nat.sub_diag in Hm by done.
  specialize (Hm eq_refl eq_refl).
  unfold new_includePath, new_defines in Hm.
  destruct (mutate _ (setitem k_includePath _) _) as [content|]; [| done].
  cbn [mbind option_bind] in Hm. rewrite Hm. cbn [fs stdout].
  rewrite Hfile. unfold merge_wrote. rewrite dict_set_set.
  rewrite <- (Nat.add_0_r (length configs)), insert_app_r. simpl.
  by rewrite <- app_assoc.
Qed.

Lemma update_search_raises (e : exn) :
  find_config config_name configs 0 = inl e →
  update_c_cpp_properties new_data output_filepath config_name w
  = merge_gave_up w (MsgUpdateUnknownError e).
Proof using Hfile Hlist.
  intros Hfind. unfold update_c_cpp_properties. run.
  rewrite Hfile. cbn [negb]. rewrite Hfile.
  cbn [py_contains py_getitem]. rewrite Hlist. run.
  cbn [negb is_list items]. rewrite Hfind. run.
  by destruct (find_config_raises _ _ _ _ Hfind) as [-> _].
Qed.
End merge.

(** ** Merges that give up *)

Lemma update_missing (new_data : pydict) (p config_name : pystr) (w : world) :
  fs w !! p = None →
  update_c_cpp_properties new_data p config_name w
  = merge_gave_up w (MsgDocumentNotFound p).
Proof. intros H. unfold update_c_cpp_properties. run. by rewrite H. Qed.

Lemma update_directory (new_data : pydict) (p config_name : pystr) (w : world) :
  fs w !! p = Some Directory →
  update_c_cpp_properties new_data p config_name w
  = merge_gave_up w (MsgUpdateUnknownError IsADirectoryError).
Proof.
  intros H. unfold update_c_cpp_properties. run.
  rewrite H. cbn [negb]. by rewrite H.
Qed.

Lemma update_not_json (new_data : pydict) (p config_name : pystr) (w : world)
    (c : file_content) :
  fs w !! p = Some (File c) → (∀ v, c ≠ Json v) →
  update_c_cpp_properties new_data p config_name w
  = merge_gave_up w (MsgBadJson p).
Proof.
  intros H Hc. unfold update_c_cpp_properties. run.
  rewrite H. cbn [negb]. rewrite H.
  destruct c as [v| |]; [by destruct (Hc v) | done | done].
Qed.

Lemma update_no_list (new_data : pydict) (p config_name : pystr) (w : world)
    (v : json) :
  fs w !! p = Some (File (Json v)) → lacks_configurations_list v →
  ∃ m, update_c_cpp_properties new_data p config_name w = merge_gave_up w m
       ∧ (m = MsgNoConfigurations ∨ m = MsgUpdateUnknownError TypeError).
Proof.
  intros H Hv. unfold update_c_cpp_properties. run.
  rewrite H. cbn [negb]. rewrite H.
  destruct v as [| | | |s|l|d]; cbn [py_contains py_getitem]; run;
    try (by eexists; split; [reflexivity | right]).
  - destruct (is_substring k_configurations s); cbn [negb];
      eexists; (split; [reflexivity |]); auto.
  - destruct (existsb _ l); cbn [negb];
      eexists; (split; [reflexivity |]); auto.
  - destruct (dict_get k_configurations d) as [x|] eqn:E; cbn [negb].
    + exists MsgNoConfigurations. split; [| by left].
      destruct x as [| | | | |l|]; try done.
      destruct Hv. by exists d, l.
    + exists MsgNoConfigurations. split; [done | by left].
Qed.

(** Whether a JSON value has a [configurations] list can be told. *)
Lemma configurations_list_dec (v : json) :
  (∃ d l, v = JObj d ∧ dict_get k_configurations d = Some (JArr l))
  ∨ lacks_configurations_list v.
Proof.
  destruct v as [| | | | | |d];
    try (right; intros (d' & l & [=] & _); done).
  destruct (dict_get k_configurations d) as [[| | | | |l|]|] eqn:E;
    try (right; intros (d' & l' & [= <-] & H); congruence).
  left. by exists d, l.
Qed.

(** C2.  The merge writes nothing when the document is missing, when it is
    not valid JSON, or when it has no [configurations] list: the file system
    is left as it was, one message is printed, and the call returns. *)
Theorem merge_aborts_without_write
    (new_data : pydict) (output_filepath config_name : pystr) (w : world) :
  (fs w !! output_filepath = None →
     update_c_cpp_properties new_data output_filepath config_name w
     = (Returned (),
        World (fs w) (stdout w ++ [MsgDocumentNotFound output_filepath])))
  ∧ (∀ c, fs w !! output_filepath = Some (File c) → (∀ v, c ≠ Json v) →
       update_c_cpp_properties new_data output_filepath config_name w
       = (Returned (), World (fs w) (stdout w ++ [MsgBadJson output_filepath])))
  ∧ (∀ v, fs w !! output_filepath = Some (File (Json v)) →
       lacks_configurations_list v →
       ∃ m, update_c_cpp_properties new_data output_filepath config_name w
            = (Returned (), World (fs w) (stdout w ++ [m]))
            ∧ (m = MsgNoConfigurations ∨ m = MsgUpdateUnknownError TypeError)).
Proof.
  split; [apply update_missing |].
  split; [apply update_not_json | apply update_no_list].
Qed.

Lemma merge_aborts_without_write_witness :
  update_c_cpp_properties hal_data properties_json (lit "Foo") (World ∅ [])
  = (Returned (), World ∅ [MsgDocumentNotFound properties_json])
  ∧ update_c_cpp_properties hal_data properties_json (lit "Foo")
      (World {[ properties_json := File (Text (lit "{oops")) ]} [])
    = (Returned (),
       World {[ properties_json := File (Text (lit "{oops")) ]}
         [MsgBadJson properties_json])
  ∧ ∃ m, update_c_cpp_properties hal_data properties_json (lit "Foo")
           (World {[ properties_json := File (Json (JObj [(k_version, JInt 4)])) ]} [])
         = (Returned (),
            World {[ properties_json := File (Json (JObj [(k_version, JInt 4)])) ]} [m])
         ∧ (m = MsgNoConfigurations ∨ m = MsgUpdateUnknownError TypeError).
Proof.
  split; [| split].
  - exact (proj1 (merge_aborts_without_write hal_data properties_json (lit "Foo")
                    (World ∅ [])) eq_refl).
  - exact (proj1 (proj2 (merge_aborts_without_write hal_data properties_json
                           (lit "Foo")
                           (World {[ properties_json := File (Text (lit "{oops")) ]} [])))
             (Text (lit "{oops")) (lookup_singleton_eq _ _) ltac:(discriminate)).
  - assert (lacks_configurations_list (JObj [(k_version, JInt 4)])) as Hlacks.
    { intros (d & l & [= <-] & H). discriminate H. }
    exact (proj2 (proj2 (merge_aborts_without_write hal_data properties_json
                           (lit "Foo")
                           (World {[ properties_json :=
                                       File (Json (JObj [(k_version, JInt 4)])) ]} [])))
             (JObj [(k_version, JInt 4)]) (lookup_singleton_eq _ _) Hlacks).
Defined.

(** ** Merges that go through *)


(** After the update the target is still the first entry with the name. *)
Lemma first_named_updated (config_name : pystr) (configs : list json)
    (i : nat) (new_data entry : pydict) :
  first_named config_name configs i entry →
  first_named config_name (<[i := JObj (with_new_data new_data entry)]> configs)
    i (with_new_data new_data entry).
Proof.
  intros (Hi & Hname & Hfirst). split; [| split].
  - apply list_lookup_insert_eq. by eapply lookup_lt_Some.
  - by rewrite with_new_data_name.
  - intros j x Hlt Hx. rewrite list_lookup_insert_ne in Hx by lia.
    by apply (Hfirst j).
Qed.

Lemma first_named_appended (config_name : pystr) (configs : list json)
    (new_data : pydict) :
  (∀ x, x ∈ configs → ¬ named config_name x) →
  first_named config_name
    (configs ++ [JObj (with_new_data new_data (new_configuration config_name))])
    (length configs) (with_new_data new_data (new_configuration config_name)).
Proof.
  intros Hno. split; [| split].
  - rewrite lookup_app_r, Nat.sub_diag by done. done.
  - by rewrite with_new_data_name.
  - intros j x Hlt Hx. rewrite lookup_app_l in Hx by done.
    apply Hno. apply list_elem_of_lookup. by exists j.
Qed.






(** A list with something that is not a mapping ahead of the target makes
    the search raise [AttributeError]; the merge then gives up and writes
    nothing. *)
Lemma merge_gives_up_on_non_entry
    (new_data : pydict) (output_filepath config_name : pystr) (w : world)
    (document : pydict) (configurations : list json) (i : nat) (x : json) :
  fs w !! output_filepath = Some (File (Json (JObj document))) →
  dict_get k_configurations document = Some (JArr configurations) →
  configurations !! i = Some x → ¬ is_entry x →
  (∀ (j : nat) y, (j < i)%nat → configurations !! j = Some y → ¬ named config_name y) →
  update_c_cpp_properties new_data output_filepath config_name w
  = merge_gave_up w (MsgUpdateUnknownError AttributeError).
Proof.
  intros Hfile Hlist Hi Hx Hbefore.
  destruct (find_config config_name configurations 0) as [e | [i0|]] eqn:Hfind.
  - rewrite (update_search_raises _ _ _ _ _ _ Hfile Hlist _ Hfind).
    by destruct (find_config_raises _ _ _ _ Hfind) as [-> _].
  - destruct (find_config_found _ _ _ _ Hfind)
      as (j & entry & -> & (Hj & Hname & _) & Hentries).
    destruct (Nat.lt_trichotomy i j) as [Hlt | [-> | Hlt]].
    + destruct Hx. by apply (Hentries i).
    + destruct Hx. exists entry. congruence.
    + destruct (Hbefore j (JObj entry) Hlt Hj). by apply named_JObj.
  - destruct (find_config_none _ _ _ Hfind x) as [Hentry _];
      [apply list_elem_of_lookup; by exists i | by destruct Hx].
Qed.

Example merge_gives_up_on_number_entry :
  update_c_cpp_properties hal_data properties_json (lit "Foo")
    (World {[ properties_json :=
                File (Json (JObj [ (k_configurations,
                                    JArr [JInt 1; JObj foo_entry]) ])) ]} [])
  = (Returned (),
     World {[ properties_json :=
                File (Json (JObj [ (k_configurations,
                                    JArr [JInt 1; JObj foo_entry]) ])) ]}
       [MsgUpdateUnknownError AttributeError]).
Proof.
  refine (merge_gives_up_on_non_entry hal_data properties_json (lit "Foo")
            (World _ []) [(k_configurations, JArr [JInt 1; JObj foo_entry])]
            [JInt 1; JObj foo_entry] 0 (JInt 1)
            (lookup_singleton_eq _ _) eq_refl eq_refl _ _).
  - by intros [d Hd].
  - intros j y Hlt. lia.
Qed.



(** A merge into a document whose target already holds the new data
    rewrites the file with what it held. *)
Lemma update_settled
    (new_data : pydict) (output_filepath config_name : pystr) (w : world)
    (document : pydict) (configurations : list json) (i : nat) (entry : pydict) :
  fs w !! output_filepath = Some (File (Json (JObj document))) →
  dict_get k_configurations document = Some (JArr configurations) →
  first_named config_name configurations i entry →
  (∀ (j : nat) x, (j < i)%nat → configurations !! j = Some x → is_entry x) →
  with_new_data new_data entry = entry →
  fs_after (update_c_cpp_properties new_data output_filepath config_name) w = fs w.
Proof.
  intros Hfile Hlist Hfirst Hentries Hsettled. unfold fs_after.
  pose proof (find_config_first _ _ 0 _ _ Hfirst Hentries) as Hfind.
  cbn [Nat.add] in Hfind.
  pose proof Hfirst as (Hi & _).
  rewrite (update_found _ _ _ _ _ _ Hfile Hlist _ _ Hfind Hi).
  cbn [merge_wrote snd fs]. rewrite Hsettled.
  rewrite (list_insert_id _ _ _ Hi), (dict_set_id _ _ _ Hlist).
  by apply insert_id.
Qed.

(** C8.  Merging the same data under the same name a second time leaves
    the file system as the first merge left it. *)
Theorem merge_idempotent
    (new_data : pydict) (output_filepath config_name : pystr) (w : world) :
  fs_after (update_c_cpp_properties new_data output_filepath config_name)
    (update_c_cpp_properties new_data output_filepath config_name w).2
  = fs_after (update_c_cpp_properties new_data output_filepath config_name) w.
Proof.
  unfold fs_after at 2.
  destruct (fs w !! output_filepath) as [[|c]|] eqn:Hfile.
  - rewrite (update_directory _ _ _ w Hfile). unfold fs_after.
    cbn [merge_gave_up snd fs]. by rewrite update_directory.
  - destruct c as [v|root|raw].
    + destruct (configurations_list_dec v) as [(d & l & -> & Hlist) | Hlacks].
      * destruct (find_config config_name l 0) as [e | [i|]] eqn:Hfind.
        -- rewrite (update_search_raises _ _ _ w _ _ Hfile Hlist _ Hfind).
           unfold fs_after. cbn [merge_gave_up snd fs].
           by rewrite (update_search_raises new_data output_filepath config_name
                         (World (fs w) _) d l Hfile Hlist e Hfind).
        -- destruct (find_config_found _ _ _ _ Hfind)
             as (j & entry & -> & Hj & Hentries).
           pose proof Hj as (Hi & _).
           rewrite (update_found _ _ _ w _ _ Hfile Hlist _ _ Hfind Hi).
           cbn [merge_wrote snd].
           eapply update_settled.
           ++ cbn [fs]. apply lookup_insert_eq.
           ++ apply dict_get_set_eq.
           ++ by apply first_named_updated.
           ++ intros j' x Hlt Hx. rewrite list_lookup_insert_ne in Hx by lia.
              by apply (Hentries j').
           ++ apply with_new_data_idemp.
        -- rewrite (update_appended _ _ _ w _ _ Hfile Hlist Hfind).
           cbn [merge_wrote snd].
           pose proof (find_config_none _ _ _ Hfind) as Hnone.
           eapply update_settled.
           ++ cbn [fs]. apply lookup_insert_eq.
           ++ apply dict_get_set_eq.
           ++ apply first_named_appended. intros x Hx. by apply Hnone.
           ++ intros j' x Hlt Hx. rewrite lookup_app_l in Hx by done.
              apply (Hnone x). apply list_elem_of_lookup. by exists j'.
           ++ apply with_new_data_idemp.
      * destruct (update_no_list new_data _ config_name w v Hfile Hlacks)
          as (m & -> & _).
        unfold fs_after. cbn [merge_gave_up snd fs].
        by destruct (update_no_list new_data _ config_name
                       (World (fs w) (stdout w ++ [m])) v Hfile Hlacks)
          as (m' & -> & _).
    + rewrite (update_not_json _ _ _ w _ Hfile) by done.
      unfold fs_after. cbn [merge_gave_up snd fs].
      by rewrite (update_not_json _ _ _ _ (Xml root)).
    + rewrite (update_not_json _ _ _ w _ Hfile) by done.
      unfold fs_after. cbn [merge_gave_up snd fs].
      by rewrite (update_not_json _ _ _ _ (Text raw)).
  - rewrite (update_missing _ _ _ w Hfile). unfold fs_after.
    cbn [merge_gave_up snd fs]. by rewrite update_missing.
Qed.

(* ------------------------------------------------------------------ *)
(** * Further properties *)

(** ** Path normalization *)

Lemma replace_char_app (old new : N) (a b : pystr) :
  replace_char old new (a ++ b) = replace_char old new a ++ replace_char old new b.
Proof. apply fmap_app. Qed.

Lemma normalize_parent_prefix (s : pystr) :
  normalize_and_clean_path (parent_prefix ++ s) = normalize_and_clean_path s.
Proof.
  unfold normalize_and_clean_path. rewrite replace_char_app.
  change (replace_char backslash slash parent_prefix) with parent_prefix.
  rewrite length_app. cbn [length parent_prefix Nat.add].
  rewrite strip_parents_more. apply strip_parents_fuel; lia.
Qed.

(** X1.  A leading parent reference is dropped whichever separator it is
    written with, and whatever follows is normalized as before.  Only the
    three characters go: after a doubled separator the result starts with
    the slash that is left. *)
Theorem normalize_leading_parent (s : pystr) :
  normalize_and_clean_path (lit "../" ++ s) = normalize_and_clean_path s
  ∧ normalize_and_clean_path (lit ".." ++ backslash :: s)
    = normalize_and_clean_path s
  ∧ normalize_and_clean_path (lit ".." ++ backslash :: backslash :: s)
    = slash :: replace_char backslash slash s.
Proof.
  split; [apply normalize_parent_prefix |]. split.
  - unfold normalize_and_clean_path.
    change (replace_char backslash slash (lit ".." ++ backslash :: s))
      with (parent_prefix ++ replace_char backslash slash s).
    rewrite length_app. cbn [length parent_prefix Nat.add].
    rewrite strip_parents_more. apply strip_parents_fuel; lia.
  - unfold normalize_and_clean_path.
    change (replace_char backslash slash (lit ".." ++ backslash :: backslash :: s))
      with (parent_prefix ++ slash :: replace_char backslash slash s).
    rewrite length_app. cbn [length parent_prefix Nat.add].
    rewrite strip_parents_more. by rewrite strip_parents_stop.
Qed.

Lemma replace_char_keeps_out (old new c : N) (s : pystr) :
  c ≠ new → c ∉ s → c ∉ replace_char old new s.
Proof.
  intros Hnew. induction s as [|x s IH]; intros Hs; simpl.
  - apply not_elem_of_nil.
  - apply not_elem_of_cons in Hs as [Hx Hs]. apply not_elem_of_cons.
    split; [| by apply IH]. by destruct (x =? old).
Qed.

(** X2.  Whatever the input, the normalized path holds no backslash, does
    not start with "../", and is an end of the input with its backslashes
    turned into slashes: normalization only cuts at the front. *)
Theorem normalize_result (path : pystr) :
  (backslash ∉ normalize_and_clean_path path)
  ∧ ¬ parent_prefix `prefix_of` normalize_and_clean_path path
  ∧ (normalize_and_clean_path path) `suffix_of` (replace_char backslash slash path)
  ∧ (length (normalize_and_clean_path path) ≤ length path)%nat.
Proof.
  pose proof (parents_stripped_suffix _ _ (normalize_stripped path)) as Hsuffix.
  split; [apply normalize_no_backslash |].
  split; [apply normalize_no_parent_prefix |].
  split; [exact Hsuffix |].
  apply suffix_length in Hsuffix. unfold replace_char in Hsuffix.
  by rewrite length_fmap in Hsuffix.
Qed.

(** ** Splitting the two fields *)

Lemma strip_sublist (s : pystr) (c : N) : c ∉ s → c ∉ strip s.
Proof.
  destruct (strip_spec s) as (before & after & Hs & _).
  intros Hc Hin. apply Hc. rewrite Hs. rewrite !elem_of_app. auto.
Qed.

Lemma elem_of_List_filter {A} (f : A → bool) (l : list A) (x : A) :
  x ∈ List.filter f l ↔ x ∈ l ∧ f x = true.
Proof. by rewrite !list_elem_of_In, filter_In. Qed.

(** X3.  Every extracted define is non-empty, holds no comma, and neither
    starts nor ends with whitespace. *)
Theorem define_symbols_clean (text : pystr) :
  Forall (fun d =>
            d ≠ [] ∧ (comma ∉ d)
            ∧ (∀ c, head d = Some c → isspace c = false)
            ∧ (∀ c, last d = Some c → isspace c = false))
    (define_symbols text).
Proof.
  apply Forall_forall. intros d Hd. unfold define_symbols in Hd.
  apply list_elem_of_fmap in Hd as (piece & -> & Hpiece).
  apply elem_of_List_filter in Hpiece as [Hpiece Htruthy].
  split; [by apply str_truthy_nonempty |]. split.
  - apply strip_sublist.
    pose proof (split_pieces comma text) as Hall.
    rewrite Forall_forall in Hall. by apply Hall.
  - destruct (strip_spec piece) as (_ & _ & _ & _ & _ & Hhead & Hlast). auto.
Qed.

Lemma split_without_sep (sep : N) (s : pystr) : sep ∉ s → split sep s = [s].
Proof.
  induction s as [|c s IH]; intros Hs; [done |].
  apply not_elem_of_cons in Hs as [Hc Hs]. simpl.
  rewrite (proj2 (N.eqb_neq c sep)) by congruence. by rewrite IH.
Qed.

Lemma lstrip_id (s : pystr) :
  (∀ c, head s = Some c → isspace c = false) → lstrip s = s.
Proof.
  destruct s as [|c s]; [done |]. intros H. simpl. by rewrite (H c eq_refl).
Qed.

Lemma strip_id (s : pystr) :
  (∀ c, head s = Some c → isspace c = false) →
  (∀ c, last s = Some c → isspace c = false) →
  strip s = s.
Proof.
  intros Hhead Hlast. unfold strip, rstrip. rewrite (lstrip_id s Hhead).
  rewrite lstrip_id; [apply rev_involutive |].
  intros c Hc. apply Hlast. by rewrite <- (rev_involutive s), last_rev.
Qed.

Lemma parents_only_normalize (n : nat) :
  normalize_and_clean_path (concat (replicate n parent_prefix)) = [].
Proof.
  induction n as [|n IH]; [done |].
  cbn [replicate concat]. by rewrite normalize_parent_prefix.
Qed.

Lemma parents_only_plain (n : nat) :
  (semicolon ∉ concat (replicate n parent_prefix))
  ∧ (∀ c, head (concat (replicate (S n) parent_prefix)) = Some c → isspace c = false)
  ∧ (∀ c, last (concat (replicate (S n) parent_prefix)) = Some c → isspace c = false).
Proof.
  split; [| split].
  - induction n as [|n IH]; [apply not_elem_of_nil |].
    cbn [replicate concat]. rewrite elem_of_app. intros [H | H]; [| done].
    unfold parent_prefix in H. rewrite !elem_of_cons, elem_of_nil in H.
    destruct H as [H | [H | [H | []]]]; discriminate H.
  - intros c [= <-]. reflexivity.
  - induction n as [|n IH]; [intros c [= <-]; reflexivity |].
    intros c. change (replicate (S (S n)) parent_prefix)
      with (parent_prefix :: replicate (S n) parent_prefix).
    cbn [concat]. intros Hc. apply IH.
    rewrite last_app in Hc.
    destruct (last (concat (replicate (S n) parent_prefix))) eqn:E; [done |].
    cbn [replicate concat] in E. rewrite last_app in E.
    destruct (last (concat (replicate n parent_prefix))); discriminate E.
Qed.

(** X4.  Every extracted include path is free of semicolons and
    backslashes and does not start with "../".  Empty pieces are discarded
    before normalization, not after: a piece made of parent references only
    is kept as the empty path. *)
Theorem include_paths_clean (text : pystr) :
  Forall (fun p => (semicolon ∉ p) ∧ (backslash ∉ p)
                   ∧ ¬ parent_prefix `prefix_of` p)
    (include_paths text)
  ∧ length (include_paths text) = length (trimmed_pieces semicolon text)
  ∧ ∀ n, include_paths (concat (replicate (S n) parent_prefix)) = [[]].
Proof.
  split; [| split].
  - apply Forall_forall. intros p Hp. unfold include_paths in Hp.
    apply list_elem_of_fmap in Hp as (piece & -> & Hpiece).
    apply elem_of_List_filter in Hpiece as [Hpiece _].
    split; [| split; [apply normalize_no_backslash
                     | apply normalize_no_parent_prefix]].
    pose proof (parents_stripped_suffix _ _ (normalize_stripped (strip piece)))
      as [k Hk].
    assert (semicolon ∉ replace_char backslash slash (strip piece)) as Hout.
    { apply replace_char_keeps_out; [done |]. apply strip_sublist.
      pose proof (split_pieces semicolon text) as Hall.
      rewrite Forall_forall in Hall. by apply Hall. }
    intros Hin. apply Hout. rewrite Hk, elem_of_app. by right.
  - by rewrite include_paths_pipeline, length_fmap.
  - intros n. destruct (parents_only_plain (S n)) as (Hsemi & _).
    destruct (parents_only_plain n) as (_ & Hhead & Hlast).
    pose proof (parents_only_normalize (S n)) as Hnorm.
    set (piece := concat (replicate (S n) parent_prefix)) in *.
    assert (str_truthy piece = true) as Htruthy by done.
    unfold include_paths. rewrite (split_without_sep _ _ Hsemi).
    cbn [List.filter]. rewrite !(strip_id _ Hhead Hlast), Htruthy.
    cbn [fmap list_fmap]. by rewrite (strip_id _ Hhead Hlast), Hnorm.
Qed.

(** ** Which nodes extraction reads *)

Lemma generate_value (input_filepath config_name : pystr) (w : world)
    (root cads_node : element) :
  fs w !! input_filepath = Some (File (Xml root)) →
  find root [Descendant t_Cads] = Some cads_node →
  generate_vscode_config_from_file input_filepath config_name w
  = (Returned (Some (extracted_from cads_node)), w).
Proof.
  intros Hfs Hcads.
  unfold generate_vscode_config_from_file, try_except, mbind, py_bind, ET_parse.
  rewrite Hfs, Hcads. unfold extracted_from, field_list.
  destruct (find cads_node [_; Child t_IncludePath]) as [[tp [[|c1 t1]|] cp]|];
    destruct (find cads_node [_; Child t_Define]) as [[td [[|c2 t2]|] cd]|];
    reflexivity.
Qed.

Lemma generate_no_cads (input_filepath config_name : pystr) (w : world)
    (root : element) :
  fs w !! input_filepath = Some (File (Xml root)) →
  find root [Descendant t_Cads] = None →
  generate_vscode_config_from_file input_filepath config_name w
  = (Returned None, w).
Proof.
  intros Hfs Hcads.
  unfold generate_vscode_config_from_file, try_except, mbind, py_bind, ET_parse.
  by rewrite Hfs, Hcads.
Qed.

Lemma generate_unreadable (input_filepath config_name : pystr) (w : world) :
  (∀ root, fs w !! input_filepath ≠ Some (File (Xml root))) →
  ∃ m, generate_vscode_config_from_file input_filepath config_name w
       = (Returned None, World (fs w) (stdout w ++ [m])).
Proof.
  intros Hfs.
  unfold generate_vscode_config_from_file, try_except, mbind, py_bind, ET_parse.
  destruct (fs w !! input_filepath) as [[|[v|root|raw]]|] eqn:E;
    try (eexists; reflexivity).
  by destruct (Hfs root).
Qed.

(** X5.  Whenever extraction returns a record, the record has exactly the
    two keys [includePath] and [defines], in that order, each holding a list
    of strings. *)
Theorem extraction_record_shape
    (input_filepath config_name : pystr) (w w' : world) (extracted : pydict) :
  generate_vscode_config_from_file input_filepath config_name w
  = (Returned (Some extracted), w') →
  ∃ paths symbols,
    extracted = [ (k_includePath, str_list paths); (k_defines, str_list symbols) ].
Proof.
  intros Hrun.
  destruct (fs w !! input_filepath) as [[|[v|root|raw]]|] eqn:Hfs;
    try (destruct (generate_unreadable input_filepath config_name w) as [m Hm];
         [intros root'; rewrite Hfs; discriminate | rewrite Hm in Hrun; discriminate]).
  destruct (find root [Descendant t_Cads]) as [cads_node|] eqn:Hcads.
  - rewrite (generate_value _ _ _ _ _ Hfs Hcads) in Hrun.
    injection Hrun as <- _. by eexists _, _.
  - rewrite (generate_no_cads _ _ _ _ Hfs Hcads) in Hrun. discriminate.
Qed.

Lemma extraction_record_shape_witness :
  ∃ paths symbols,
    extracted_from demo_cads
    = [ (k_includePath, str_list paths); (k_defines, str_list symbols) ].
Proof.
  apply (extraction_record_shape demo_uvprojx (lit "demo") demo_world demo_world).
  apply (generate_value demo_uvprojx (lit "demo") demo_world demo_project demo_cads);
    [apply lookup_singleton_eq | reflexivity].
Defined.

Lemma iter_preorder (t : pystr) (e : element) :
  iter t e = filter (fun x => tag x = t) (preorder e).
Proof.
  induction e as [t' tx cs IH] using element_tree_ind.
  cbn [iter preorder]. rewrite filter_cons. cbn [tag].
  assert (List.flat_map (iter t) cs
          = filter (fun x => tag x = t) (List.flat_map preorder cs)) as ->.
  { induction IH as [|c cs Hc _ IHcs]; [done |].
    cbn [List.flat_map]. by rewrite filter_app, Hc, IHcs. }
  unfold pystr_eqb. destruct (decide (t' = t)) as [-> | Hne].
  - by rewrite bool_decide_eq_true_2.
  - by rewrite bool_decide_eq_false_2.
Qed.

(** [.//t] is the first element tagged [t] in document order, the context
    element itself left out. *)
Lemma find_descendant_first (t : pystr) (e : element) :
  find e [Descendant t] = head (filter (fun x => tag x = t) (below e)).
Proof.
  unfold find, below. rewrite iterfind_descendant. f_equal.
  induction (children e) as [|c cs IH]; [done |].
  cbn [List.flat_map]. by rewrite filter_app, iter_preorder, IH.
Qed.

(** X6.  Extraction reads one Cads node: the first one in document order
    below the root.  Two project files whose first such nodes are the same
    give the same result, whatever else they hold. *)
Theorem extraction_reads_first_cads
    (p p' name name' : pystr) (w w' : world) (root root' : element) :
  fs w !! p = Some (File (Xml root)) →
  fs w' !! p' = Some (File (Xml root')) →
  head (filter (fun x => tag x = t_Cads) (below root))
  = head (filter (fun x => tag x = t_Cads) (below root')) →
  (generate_vscode_config_from_file p name w).1
  = (generate_vscode_config_from_file p' name' w').1.
Proof.
  intros Hfs Hfs' Hfirst. rewrite <- !find_descendant_first in Hfirst.
  destruct (find root [Descendant t_Cads]) as [cads_node|] eqn:Hcads.
  - rewrite (generate_value _ _ _ _ _ Hfs Hcads).
    by rewrite (generate_value _ _ _ _ _ Hfs' (eq_sym Hfirst)).
  - rewrite (generate_no_cads _ _ _ _ Hfs Hcads).
    by rewrite (generate_no_cads _ _ _ _ Hfs' (eq_sym Hfirst)).
Qed.

Lemma extraction_reads_first_cads_witness :
  (generate_vscode_config_from_file demo_uvprojx (lit "demo") demo_world).1
  = (generate_vscode_config_from_file demo_uvprojx (lit "other")
       (World {[ demo_uvprojx := File (Xml two_targets_project) ]} [])).1.
Proof.
  apply (extraction_reads_first_cads demo_uvprojx demo_uvprojx (lit "demo")
           (lit "other") demo_world _ demo_project two_targets_project).
  - apply lookup_singleton_eq.
  - apply lookup_singleton_eq.
  - reflexivity.
Defined.

Lemma elem_of_iterfind_descendant_child (a b : pystr) (e x : element) :
  x ∈ iterfind e [Descendant a; Child b]
  ↔ ∃ v, descendant e v ∧ tag v = a ∧ x ∈ children v ∧ tag x = b.
Proof.
  change (iterfind e [Descendant a; Child b])
    with (select_step (Child b) (iterfind e [Descendant a])).
  cbn [select_step]. rewrite elem_of_flat_map. split.
  - intros (v & Hv & Hx). apply elem_of_iterfind_descendant in Hv as [Hd Ht].
    apply elem_of_List_filter in Hx as [Hx Hb]. apply pystr_eqb_eq in Hb.
    by exists v.
  - intros (v & Hd & Ht & Hx & Hb). exists v.
    split; [by apply elem_of_iterfind_descendant |].
    apply elem_of_List_filter. split; [done | by apply pystr_eqb_eq].
Qed.

Lemma find_descendant_child_None (a b : pystr) (e : element) :
  (∀ v c, descendant e v → tag v = a → c ∈ children v → tag c ≠ b) →
  find e [Descendant a; Child b] = None.
Proof.
  intros Hnone. unfold find.
  destruct (iterfind e [Descendant a; Child b]) as [|x l] eqn:E; [done |].
  assert (x ∈ iterfind e [Descendant a; Child b]) as Hx
    by (rewrite E; apply list_elem_of_here).
  apply elem_of_iterfind_descendant_child in Hx as (v & Hd & Ht & Hx & Hb).
  by destruct (Hnone v x).
Qed.

(** X7.  A field counts only as a direct child of a VariousControls node
    below the Cads node.  When no such node has an IncludePath child (a
    Define child), the include paths (the defines) come out empty, wherever
    else in the file such a tag may occur. *)
Theorem extraction_field_location
    (input_filepath config_name : pystr) (w : world) (root cads_node : element) :
  fs w !! input_filepath = Some (File (Xml root)) →
  find root [Descendant t_Cads] = Some cads_node →
  ∃ extracted,
    generate_vscode_config_from_file input_filepath config_name w
    = (Returned (Some extracted), w)
    ∧ ((∀ v c, descendant cads_node v → tag v = t_VariousControls →
               c ∈ children v → tag c ≠ t_IncludePath) →
       dict_get k_includePath extracted = Some (JArr []))
    ∧ ((∀ v c, descendant cads_node v → tag v = t_VariousControls →
               c ∈ children v → tag c ≠ t_Define) →
       dict_get k_defines extracted = Some (JArr [])).
Proof.
  intros Hfs Hcads. exists (extracted_from cads_node).
  split; [by apply (generate_value _ _ _ root) |]. split; intros Hnone.
  - unfold extracted_from. by rewrite (find_descendant_child_None _ _ _ Hnone).
  - unfold extracted_from. cbn [dict_get].
    by rewrite (find_descendant_child_None _ _ _ Hnone).
Qed.

Lemma extraction_field_location_witness :
  ∃ extracted,
    generate_vscode_config_from_file demo_uvprojx (lit "demo")
      (World {[ demo_uvprojx :=
                  File (Xml (Element (lit "Project") None [misplaced_cads])) ]} [])
    = (Returned (Some extracted),
       World {[ demo_uvprojx :=
                  File (Xml (Element (lit "Project") None [misplaced_cads])) ]} [])
    ∧ dict_get k_includePath extracted = Some (JArr [])
    ∧ dict_get k_defines extracted = Some (JArr []).
Proof.
  destruct (extraction_field_location demo_uvprojx (lit "demo")
              (World {[ demo_uvprojx :=
                          File (Xml (Element (lit "Project") None [misplaced_cads])) ]} [])
              (Element (lit "Project") None [misplaced_cads]) misplaced_cads
              (lookup_singleton_eq _ _) eq_refl)
    as (extracted & Hrun & Hinc & Hdef).
  exists extracted. split; [exact Hrun |].
  assert (∀ v, descendant misplaced_cads v → tag v = t_VariousControls →
               v = Element t_VariousControls None
                     [Element (lit "MiscControls") (Some (lit "-O2")) []])
    as Honly.
  { intros v Hv Ht. apply descendant_inv in Hv as (c & Hc & Hv).
    cbn [children misplaced_cads] in Hc.
    rewrite !elem_of_cons, elem_of_nil in Hc.
    destruct Hc as [-> | [-> | []]].
    - destruct Hv as [-> | Hv]; [discriminate Ht |].
      apply descendant_inv in Hv as (c & Hc & _). by apply elem_of_nil in Hc.
    - destruct Hv as [-> | Hv]; [done |].
      apply descendant_inv in Hv as (c & Hc & Hv).
      cbn [children] in Hc. apply list_elem_of_singleton in Hc as ->.
      destruct Hv as [-> | Hv]; [discriminate Ht |].
      apply descendant_inv in Hv as (c & Hc & _). by apply elem_of_nil in Hc. }
  split.
  - apply Hinc. intros v c Hv Ht Hc. rewrite (Honly v Hv Ht) in Hc.
    cbn [children] in Hc. apply list_elem_of_singleton in Hc as ->. discriminate.
  - apply Hdef. intros v c Hv Ht Hc. rewrite (Honly v Hv Ht) in Hc.
    cbn [children] in Hc. apply list_elem_of_singleton in Hc as ->. discriminate.
Defined.

(** ** Ensure-exists and merge *)


















Lemma is_substring_spec (needle s : pystr) :
  is_substring needle s = true ↔ ∃ a b, s = a ++ needle ++ b.
Proof.
  induction s as [|c s IH].
  - cbn [is_substring]. rewrite orb_false_r, startswith_prefix. split.
    + intros [b ->]. by exists [], b.
    + intros (a & b & H). destruct a; [by exists b |]. discriminate H.
  - cbn [is_substring]. rewrite orb_true_iff, startswith_prefix, IH. split.
    + intros [[b ->] | (a & b & ->)]; [by exists [], b | by exists (c :: a), b].
    + intros ([|c' a] & b & H).
      * left. exists b. exact H.
      * right. injection H as -> ->. by exists a, b.
Qed.

Lemma existsb_eq_str (k : pystr) (l : list json) :
  existsb (fun item => eq_str (Some item) k) l = true ↔ JStr k ∈ l.
Proof.
  rewrite existsb_exists. split.
  - intros (x & Hx & Heq). apply eq_str_true in Heq as [= ->].
    by apply list_elem_of_In.
  - intros Hin. exists (JStr k). split; [by apply list_elem_of_In |].
    by apply eq_str_true.
Qed.

Lemma misleads_str_iff (s : pystr) :
  membership_misleads (JStr s) ↔ is_substring k_configurations s = true.
Proof.
  rewrite is_substring_spec. split.
  - intros H. inversion H. by eexists _, _.
  - intros (a & b & ->). constructor.
Qed.

Lemma misleads_list_iff (l : list json) :
  membership_misleads (JArr l)
  ↔ existsb (fun item => eq_str (Some item) k_configurations) l = true.
Proof.
  rewrite existsb_eq_str. split.
  - intros H. by inversion H.
  - by constructor.
Qed.

(** X13.  How a document without a configurations list is reported.  A
    mapping, and a string or list in which [configurations] does not occur,
    get the missing-list warning; a number, boolean or null, and a string or
    list in which it does occur, end in the unknown-error message, through a
    [TypeError]. *)
Theorem merge_reports_malformed
    (new_data : pydict) (output_filepath config_name : pystr) (w : world)
    (v : json) :
  fs w !! output_filepath = Some (File (Json v)) →
  lacks_configurations_list v →
  (membership_misleads v →
     update_c_cpp_properties new_data output_filepath config_name w
     = (Returned (),
        World (fs w) (stdout w ++ [MsgUpdateUnknownError TypeError])))
  ∧ (¬ membership_misleads v →
     update_c_cpp_properties new_data output_filepath config_name w
     = (Returned (), World (fs w) (stdout w ++ [MsgNoConfigurations]))).
Proof.
  intros H Hv. unfold update_c_cpp_properties. run.
  rewrite H. cbn [negb]. rewrite H.
  destruct v as [| | | |s|l|d]; cbn [py_contains py_getitem]; run;
    try (split; [done | intros Hno; destruct Hno; constructor]).
  - rewrite misleads_str_iff.
    destruct (is_substring k_configurations s); cbn [negb]; by split.
  - rewrite misleads_list_iff.
    destruct (existsb _ l); cbn [negb]; by split.
  - split; [intros Hyes; inversion Hyes |]. intros _.
    destruct (dict_get k_configurations d) as [x|] eqn:E; cbn [negb]; [| done].
    destruct x as [| | | | |l|]; try done.
    destruct Hv. by exists d, l.
Qed.

Lemma merge_reports_malformed_witness :
  update_c_cpp_properties hal_data properties_json (lit "Foo")
    (World {[ properties_json :=
                File (Json (JArr [JStr k_configurations])) ]} [])
  = (Returned (),
     World {[ properties_json := File (Json (JArr [JStr k_configurations])) ]}
       [MsgUpdateUnknownError TypeError])
  ∧ update_c_cpp_properties hal_data properties_json (lit "Foo")
      (World {[ properties_json := File (Json (JArr [JStr k_version])) ]} [])
    = (Returned (),
       World {[ properties_json := File (Json (JArr [JStr k_version])) ]}
         [MsgNoConfigurations]).
Proof.
  split.
  - refine (proj1 (merge_reports_malformed hal_data properties_json (lit "Foo")
                     (World {[ properties_json :=
                                 File (Json (JArr [JStr k_configurations])) ]} [])
                     (JArr [JStr k_configurations]) (lookup_singleton_eq _ _) _) _).
    + intros (d & l & [=] & _).
    + constructor. apply list_elem_of_here.
  - refine (proj2 (merge_reports_malformed hal_data properties_json (lit "Foo")
                     (World {[ properties_json :=
                                 File (Json (JArr [JStr k_version])) ]} [])
                     (JArr [JStr k_version]) (lookup_singleton_eq _ _) _) _).
    + intros (d & l & [=] & _).
    + intros Hyes. inversion Hyes as [| | | | |l Hin]; subst.
      apply list_elem_of_singleton in Hin. discriminate Hin.
Defined.




(** ** Looking for the project file *)

Lemma fstree_ind_strong (P : fstree → Prop) :
  P FsFile →
  (∀ entries, Forall (fun e => P e.2) entries → P (FsDir entries)) →
  ∀ t, P t.
Proof.
  intros Hfile Hdir. fix IH 1. intros [|entries]; [exact Hfile |].
  apply Hdir. induction entries as [|[name sub] entries IHentries];
    constructor; [apply IH | exact IHentries].
Qed.

Lemma flat_map_flat_map {A B C} (f : A → list B) (g : B → list C) (l : list A) :
  List.flat_map g (List.flat_map f l)
  = List.flat_map (fun x => List.flat_map g (f x)) l.
Proof.
  induction l as [|x l IH]; [done |].
  cbn [List.flat_map]. by rewrite flat_map_app, IH.
Qed.

(** The files of the start directory come first, then those found under each
    entry in turn. *)
Lemma find_uvprojx_files_dir (top : pystr) (entries : list (pystr * fstree)) :
  find_uvprojx_files top (Some (FsDir entries))
  = matches_in top (nondirs entries)
    ++ List.flat_map
         (fun e => find_uvprojx_files (os_path_join top e.1) (Some e.2)) entries.
Proof.
  unfold find_uvprojx_files. cbn [walk List.flat_map]. f_equal.
  rewrite flat_map_flat_map. apply flat_map_ext. intros [name sub].
  by destruct sub.
Qed.

Lemma endswith_suffix (s suffix : pystr) :
  endswith s suffix = true ↔ suffix `suffix_of` s.
Proof.
  unfold endswith. rewrite startswith_prefix. split.
  - intros [k Hk]. exists (rev k).
    by rewrite <- (rev_involutive s), Hk, rev_app_distr, rev_involutive.
  - intros [k ->]. exists (rev k). by rewrite rev_app_distr.
Qed.

Lemma os_path_join_suffix (a b : pystr) : b `suffix_of` os_path_join a b.
Proof.
  unfold os_path_join.
  destruct (startswith b [slash] || negb (str_truthy a)); [done |].
  destruct (endswith a [slash]).
  - by apply suffix_app_r.
  - by exists (a ++ [slash]); rewrite <- app_assoc.
Qed.

Lemma joined_snoc (top : pystr) (names : list pystr) (name : pystr) :
  joined top (names ++ [name]) = os_path_join (joined top names) name.
Proof. unfold joined. by rewrite foldl_app. Qed.

Lemma file_at_nonempty (t : fstree) (names : list pystr) :
  file_at t names → names ≠ [].
Proof. by destruct 1. Qed.

Lemma nondirs_elem (entries : list (pystr * fstree)) (name : pystr) :
  name ∈ nondirs entries ↔ (name, FsFile) ∈ entries.
Proof.
  unfold nondirs. rewrite list_elem_of_fmap. split.
  - intros ([name' sub] & -> & Hin).
    apply elem_of_List_filter in Hin as [Hin Hfile]. by destruct sub.
  - intros Hin. exists (name, FsFile). split; [done |].
    by apply elem_of_List_filter.
Qed.

Lemma elem_of_matches_in (root : pystr) (files : list pystr) (p : pystr) :
  p ∈ matches_in root files
  ↔ ∃ name, name ∈ files ∧ endswith name uvprojx_suffix = true
            ∧ p = os_path_join root name.
Proof.
  unfold matches_in. rewrite list_elem_of_fmap. split.
  - intros (name & -> & Hin). apply elem_of_List_filter in Hin as [Hin Hends].
    by exists name.
  - intros (name & Hin & Hends & ->). exists name. split; [done |].
    by apply elem_of_List_filter.
Qed.

Lemma find_uvprojx_files_sound (top : pystr) (t : fstree) (p : pystr) :
  p ∈ find_uvprojx_files top (Some t) →
  ∃ names name,
    file_at t names ∧ last names = Some name
    ∧ endswith name uvprojx_suffix = true ∧ p = joined top names.
Proof.
  revert top. induction t as [|entries IH] using fstree_ind_strong; intros top.
  - intros Hp. by apply elem_of_nil in Hp.
  - rewrite find_uvprojx_files_dir, elem_of_app, elem_of_matches_in, elem_of_flat_map.
    intros [(name & Hin & Hends & ->) | ([name sub] & Hin & Hp)].
    + exists [name], name. apply nondirs_elem in Hin.
      split; [by constructor | done].
    + rewrite Forall_forall in IH.
      destruct (IH _ Hin _ Hp) as (names & last_name & Hat & Hlast & Hends & ->).
      exists (name :: names), last_name.
      split; [by econstructor |]. split; [| done].
      destruct names; [by apply file_at_nonempty in Hat | done].
Qed.

Lemma find_uvprojx_files_complete (top : pystr) (t : fstree)
    (names : list pystr) (name : pystr) :
  file_at t names → last names = Some name →
  endswith name uvprojx_suffix = true →
  joined top names ∈ find_uvprojx_files top (Some t).
Proof.
  intros Hat. revert top.
  induction Hat as [entries name' Hin | entries name' sub rest Hin Hat IH];
    intros top Hlast Hends;
    rewrite find_uvprojx_files_dir, elem_of_app.
  - injection Hlast as ->. left. apply elem_of_matches_in.
    exists name. by rewrite nondirs_elem.
  - right. apply elem_of_flat_map. exists (name', sub). split; [done |].
    apply IH; [| done].
    destruct rest; [by apply file_at_nonempty in Hat | done].
Qed.

(** X15.  The search returns exactly the regular files below the start
    directory, at any depth, whose name ends in [.uvprojx] (in that very
    case), each as the start directory joined with the names that lead to
    it; a directory of such a name is not returned.  Every path returned
    ends in [.uvprojx]. *)
Theorem find_uvprojx_files_exact (start_dir : pystr) (t : fstree) (p : pystr) :
  (p ∈ find_uvprojx_files start_dir (Some t)
   ↔ ∃ names name,
       file_at t names ∧ last names = Some name
       ∧ endswith name uvprojx_suffix = true ∧ p = joined start_dir names)
  ∧ (p ∈ find_uvprojx_files start_dir (Some t) →
     endswith p uvprojx_suffix = true).
Proof.
  assert (p ∈ find_uvprojx_files start_dir (Some t)
          ↔ ∃ names name,
              file_at t names ∧ last names = Some name
              ∧ endswith name uvprojx_suffix = true ∧ p = joined start_dir names)
    as Hexact.
  { split; [apply find_uvprojx_files_sound |].
    intros (names & name & Hat & Hlast & Hends & ->).
    by eapply find_uvprojx_files_complete. }
  split; [exact Hexact |].
  intros Hp. apply Hexact in Hp as (names & name & Hat & Hlast & Hends & ->).
  apply endswith_suffix. apply endswith_suffix in Hends.
  destruct names as [|n names _] using rev_ind; [done |].
  rewrite last_snoc in Hlast. injection Hlast as ->.
  rewrite joined_snoc. etrans; [exact Hends | apply os_path_join_suffix].
Qed.

Lemma find_uvprojx_files_exact_witness :
  (lit "src/MDK-ARM/app.uvprojx" ∈ find_uvprojx_files (lit "src") (Some demo_tree))
  ∧ (lit "src/MDK-ARM/APP.UVPROJX" ∉ find_uvprojx_files (lit "src") (Some demo_tree))
  ∧ (lit "src/build.uvprojx" ∉ find_uvprojx_files (lit "src") (Some demo_tree)).
Proof.
  split; [| split].
  - apply (proj1 (find_uvprojx_files_exact (lit "src") demo_tree
                    (lit "src/MDK-ARM/app.uvprojx"))).
    exists [lit "MDK-ARM"; lit "app.uvprojx"], (lit "app.uvprojx").
    split; [| by repeat split].
    apply (file_below _ _ (FsDir [ (lit "app.uvprojx", FsFile);
                                   (lit "APP.UVPROJX", FsFile) ])).
    + apply list_elem_of_further, list_elem_of_further, list_elem_of_here.
    + apply file_here, list_elem_of_here.
  - intros Hin.
    apply (proj2 (find_uvprojx_files_exact (lit "src") demo_tree
                    (lit "src/MDK-ARM/APP.UVPROJX"))) in Hin.
    discriminate Hin.
  - intros Hin.
    change (find_uvprojx_files (lit "src") (Some demo_tree))
      with [ lit "src/top.uvprojx"; lit "src/build.uvprojx/old.uvprojx";
             lit "src/MDK-ARM/app.uvprojx" ] in Hin.
    rewrite !elem_of_cons, elem_of_nil in Hin.
    destruct Hin as [H | [H | [H | []]]]; discriminate H.
Defined.

(** X16.  A project file directly in the start directory is preferred to
    any in a sub-directory: when some name there ends in [.uvprojx], the
    first such name in listing order is what [find_first_uvprojx] returns,
    and nothing is logged. *)
Theorem find_first_prefers_top
    (src_dir : pystr) (entries : list (pystr * fstree)) (name : pystr) (s : console) :
  head (List.filter (fun file => endswith file uvprojx_suffix) (nondirs entries))
  = Some name →
  find_first_uvprojx src_dir (Some (FsDir entries)) s
  = (Returned (Some (os_path_join src_dir name)), s).
Proof.
  intros Hhead. unfold find_first_uvprojx.
  rewrite find_uvprojx_files_dir. unfold matches_in.
  destruct (List.filter _ (nondirs entries)) as [|first rest]; [done |].
  injection Hhead as ->. reflexivity.
Qed.

Lemma find_first_prefers_top_witness :
  find_first_uvprojx (lit "src") (Some demo_tree) (Console ∅ [] [])
  = (Returned (Some (lit "src/top.uvprojx")), Console ∅ [] []).
Proof.
  apply (find_first_prefers_top (lit "src") _ (lit "top.uvprojx")). reflexivity.
Defined.

(** X17.  [find_first_uvprojx] never raises and leaves the files and
    standard output alone.  It returns [None], and logs one warning, exactly
    when no regular file below the start directory has a name ending in
    [.uvprojx], which includes a start directory that is not there;
    otherwise it returns the first path of the search and logs nothing. *)
Theorem find_first_uvprojx_exact
    (src_dir : pystr) (tree : option fstree) (s : console) :
  ∃ r logged,
    find_first_uvprojx src_dir tree s
    = (Returned r, Console (files s) (out s) (err s ++ logged))
    ∧ (r = None ↔
       ∀ t names name, tree = Some t → file_at t names →
                       last names = Some name →
                       endswith name uvprojx_suffix = false)
    ∧ (r = None → logged = [(WARNING, LogNoProjectFile src_dir)])
    ∧ (∀ p, r = Some p →
         logged = [] ∧ head (find_uvprojx_files src_dir tree) = Some p
         ∧ endswith p uvprojx_suffix = true).
Proof.
  destruct s as [fs0 out0 err0]. unfold find_first_uvprojx.
  destruct (find_uvprojx_files src_dir tree) as [|first rest] eqn:Hfound.
  - exists None, [(WARNING, LogNoProjectFile src_dir)].
    split; [reflexivity |]. split; [| done]. split; [| done].
    intros _ t names name -> Hat Hlast.
    destruct (endswith name uvprojx_suffix) eqn:Hends; [| done].
    pose proof (find_uvprojx_files_complete src_dir t names name Hat Hlast Hends)
      as Hin.
    rewrite Hfound in Hin. by apply elem_of_nil in Hin.
  - exists (Some first), []. split; [run_io; by rewrite app_nil_r |].
    assert (first ∈ find_uvprojx_files src_dir tree) as Hin
      by (rewrite Hfound; apply list_elem_of_here).
    destruct tree as [t|]; [| by apply elem_of_nil in Hin].
    destruct (find_uvprojx_files_sound src_dir t first Hin)
      as (names & name & Hat & Hlast & Hends & Hjoined).
    split; [| split; [done |]].
    + split; [done |]. intros Hnone.
      by rewrite (Hnone t names name eq_refl Hat Hlast) in Hends.
    + intros p [= <-]. split; [done |]. split; [done |].
      apply endswith_suffix. apply endswith_suffix in Hends. subst first.
      destruct names as [|n names _] using rev_ind; [done |].
      rewrite last_snoc in Hlast. injection Hlast as ->.
      rewrite joined_snoc. etrans; [exact Hends | apply os_path_join_suffix].
Qed.

Lemma find_first_uvprojx_exact_witness :
  find_first_uvprojx (lit "src") None (Console ∅ [] [])
  = (Returned None, Console ∅ [] [(WARNING, LogNoProjectFile (lit "src"))]).
Proof.
  destruct (find_first_uvprojx_exact (lit "src") None (Console ∅ [] []))
    as (r & logged & Hrun & Hnone & Hlogged & _).
  assert (r = None) as -> by (apply Hnone; intros t names name [=]).
  by rewrite Hrun, Hlogged.
Defined.

(** ** The files the script writes on the side *)

Lemma write_editorconfig_run (output_dir : pystr) (s : console) :
  write_editorconfig_file output_dir s
  = let p := os_path_join output_dir dot_editorconfig in
    match files s !! p with
    | Some _ => (Returned (), Console (files s) (out s ++ [EditorconfigExists p]) (err s))
    | None =>
        (Returned (),
         Console (<[p := File (Text EDITORCONFIG_CONTENT)]> (files s))
           (out s ++ [EditorconfigWritten p]) (err s))
    end.
Proof.
  unfold write_editorconfig_file. run_io. unfold path_exists, text_write_file.
  cbn [fs stdout]. cbv zeta.
  destruct (files s !! os_path_join output_dir dot_editorconfig) as [n|] eqn:E;
    cbn [fs stdout fmap list_fmap].
  - by rewrite app_nil_r.
  - rewrite app_nil_r. cbn [files out err]. rewrite E. cbn [fs stdout fmap list_fmap].
    by rewrite app_nil_r.
Qed.

(** X18.  [write_editorconfig_file] never raises and prints one line.  A
    node already at [output_dir/.editorconfig] is left as it is; a write,
    when there is one, puts the fixed text at that path and touches nothing
    else.  Calling it again changes no file. *)
Theorem write_editorconfig_never_overwrites (output_dir : pystr) (s : console) :
  ∃ line s',
    write_editorconfig_file output_dir s = (Returned (), s')
    ∧ out s' = out s ++ [line] ∧ err s' = err s
    ∧ (is_Some (files s !! os_path_join output_dir dot_editorconfig) →
       files s' = files s
       ∧ line = EditorconfigExists (os_path_join output_dir dot_editorconfig))
    ∧ (files s' = files s
       ∨ files s !! os_path_join output_dir dot_editorconfig = None
         ∧ files s'
           = <[os_path_join output_dir dot_editorconfig :=
                 File (Text EDITORCONFIG_CONTENT)]> (files s))
    ∧ files (write_editorconfig_file output_dir s').2 = files s'.
Proof.
  rewrite write_editorconfig_run. cbv zeta.
  destruct (files s !! os_path_join output_dir dot_editorconfig) as [n|] eqn:E.
  - eexists _, _. split; [reflexivity |]. cbn [files out err].
    split; [done |]. split; [done |]. split; [done |]. split; [by left |].
    rewrite write_editorconfig_run. cbv zeta. cbn [files]. by rewrite E.
  - eexists _, _. split; [reflexivity |]. cbn [files out err].
    split; [done |]. split; [done |]. split; [by intros [? ?] |].
    split; [by right |].
    rewrite write_editorconfig_run. cbv zeta. cbn [files].
    by rewrite lookup_insert_eq.
Qed.

Lemma write_editorconfig_never_overwrites_witness :
  files (write_editorconfig_file (lit "src")
           (Console {[ lit "src/.editorconfig" := File (Text (lit "root = false")) ]}
              [] [])).2
  = {[ lit "src/.editorconfig" := File (Text (lit "root = false")) ]}.
Proof.
  destruct (write_editorconfig_never_overwrites (lit "src")
              (Console {[ lit "src/.editorconfig" := File (Text (lit "root = false")) ]}
                 [] []))
    as (line & s' & Hrun & _ & _ & Hkeep & _).
  rewrite Hrun. apply Hkeep. eexists. apply lookup_singleton_eq.
Defined.

Lemma safe_read_json_run (path : pystr) (s : console) :
  safe_read_json path s
  = match files s !! path with
    | Some (File (Json v)) => (Returned v, s)
    | other =>
        (Returned (JObj []),
         Console (files s) (out s)
           (err s ++ [(ERROR,
                       LogReadJsonFailed
                         match other with
                         | None => FileNotFoundError
                         | Some Directory => IsADirectoryError
                         | Some (File _) => JSONDecodeError
                         end)]))
    end.
Proof.
  destruct s as [fs0 out0 err0]. unfold safe_read_json. run_io.
  unfold json_load_file. cbn [fs stdout].
  destruct (fs0 !! path) as [[|[v|root|raw]]|];
    cbn [fs stdout fmap list_fmap files out err]; by rewrite ?app_nil_r.
Qed.


(** X19.  [safe_read_json] never raises and changes no file.  It returns
    the value a JSON file holds, whatever its kind; for a path that is
    missing, a directory, or not JSON it logs one error and returns the empty
    mapping. *)
Theorem safe_read_json_total (path : pystr) (s : console) :
  ∃ r logged,
    safe_read_json path s
    = (Returned r, Console (files s) (out s) (err s ++ logged))
    ∧ (∀ v, files s !! path = Some (File (Json v)) → r = v ∧ logged = [])
    ∧ ((∀ v, files s !! path ≠ Some (File (Json v))) →
       r = JObj [] ∧ ∃ e, logged = [(ERROR, LogReadJsonFailed e)]).
Proof.
  rewrite safe_read_json_run. destruct s as [fs0 out0 err0]. cbn [files out err].
  destruct (fs0 !! path) as [[|[v|root|raw]]|] eqn:E.
  - eexists _, _. split; [reflexivity |]. split; [done |]. eauto.
  - exists v, []. rewrite app_nil_r. split; [reflexivity |].
    split; [by intros v' [= <-] |]. intros Hno. by destruct (Hno v).
  - eexists _, _. split; [reflexivity |]. split; [done |]. eauto.
  - eexists _, _. split; [reflexivity |]. split; [done |]. eauto.
  - eexists _, _. split; [reflexivity |]. split; [done |]. eauto.
Qed.

Lemma safe_read_json_total_witness :
  safe_read_json properties_json
    (Console {[ properties_json := File (Json (JArr [JInt 1])) ]} [] [])
  = (Returned (JArr [JInt 1]),
     Console {[ properties_json := File (Json (JArr [JInt 1])) ]} [] []).
Proof.
  destruct (safe_read_json_total properties_json
              (Console {[ properties_json := File (Json (JArr [JInt 1])) ]} [] []))
    as (r & logged & Hrun & Hjson & _).
  destruct (Hjson (JArr [JInt 1]) (lookup_singleton_eq _ _)) as [-> ->].
  exact Hrun.
Defined.



(** ** The wrappers, in the order the script calls them *)

Lemma run_py_run {A} (m : py A) (s : console) (r : outcome A) (w : world) :
  m (World (files s) []) = (r, w) →
  run_py m s = (r, Console (fs w) (out s ++ (Said <$> stdout w)) (err s)).
Proof. unfold run_py. by intros ->. Qed.

Lemma parse_keil_config_value
    (uvprojx_path config_name : pystr) (s : console) (root cads_node : element) :
  files s !! uvprojx_path = Some (File (Xml root)) →
  find root [Descendant t_Cads] = Some cads_node →
  parse_keil_config uvprojx_path config_name s
  = (Returned (Some (extracted_from cads_node)), s).
Proof.
  destruct s as [fs0 out0 err0]. cbn [files]. intros Hfile Hcads.
  unfold parse_keil_config. unfold mbind, io_bind.
  rewrite (run_py_run _ (Console fs0 out0 err0) _ _
             (generate_value uvprojx_path config_name (World fs0 []) root
                cads_node Hfile Hcads)).
  cbn [data_truthy extracted_from negb fs stdout fmap list_fmap out err files].
  run_io. by rewrite app_nil_r.
Qed.

(** X21.  [parse_keil_config] never drops a record: when the project file
    parses and has a Cads node it returns the record extraction builds,
    prints and logs nothing, and changes nothing.  In every other case it
    returns [None], changes no file, and logs one error after what
    extraction printed. *)
Theorem parse_keil_config_exact (uvprojx_path config_name : pystr) (s : console) :
  (∀ root cads_node,
     files s !! uvprojx_path = Some (File (Xml root)) →
     find root [Descendant t_Cads] = Some cads_node →
     parse_keil_config uvprojx_path config_name s
     = (Returned (Some (extracted_from cads_node)), s))
  ∧ ((∀ root, files s !! uvprojx_path = Some (File (Xml root)) →
              find root [Descendant t_Cads] = None) →
     ∃ lines,
       parse_keil_config uvprojx_path config_name s
       = (Returned None,
          Console (files s) (out s ++ lines)
            (err s ++ [(ERROR, LogExtractionFailed uvprojx_path)]))
       ∧ (length lines ≤ 1)%nat).
Proof.
  split; [intros root cads_node; apply parse_keil_config_value |].
  destruct s as [fs0 out0 err0]. cbn [files out err].
  intros Hnone. unfold parse_keil_config. unfold mbind at 1, io_bind at 1.
  destruct (fs0 !! uvprojx_path) as [[|[v|root|raw]]|] eqn:Hfile.
  all: try (destruct (generate_unreadable uvprojx_path config_name (World fs0 []))
              as [m Hm];
            [intros root'; cbn [fs]; rewrite Hfile; discriminate |];
            rewrite (run_py_run _ (Console fs0 out0 err0) _ _ Hm);
            cbn [data_truthy negb fs stdout app]; run_io;
            exists [Said m]; split; [reflexivity | cbn [length]; lia]).
  rewrite (run_py_run _ (Console fs0 out0 err0) _ _
             (generate_no_cads uvprojx_path config_name (World fs0 []) root
                Hfile (Hnone root eq_refl))).
  cbn [data_truthy negb fs stdout fmap list_fmap]. run_io.
  exists []. split; [by rewrite app_nil_r | cbn [length]; lia].
Qed.

Lemma parse_keil_config_exact_witness :
  parse_keil_config demo_uvprojx (lit "demo")
    (Console {[ demo_uvprojx := File (Xml demo_project) ]} [] [])
  = (Returned (Some [ (k_includePath, str_list [lit "A"; lit "B"; lit "C"]);
                      (k_defines, str_list [lit "X"; lit "Y"]) ]),
     Console {[ demo_uvprojx := File (Xml demo_project) ]} [] []).
Proof.
  exact (proj1 (parse_keil_config_exact demo_uvprojx (lit "demo")
                  (Console {[ demo_uvprojx := File (Xml demo_project) ]} [] []))
           demo_project demo_cads (lookup_singleton_eq _ _) eq_refl).
Defined.



